(** * Prior Authorization API: a shallow embedding of the request pipeline

    The development follows the Python sources of the backend:
    - [models.py]        the request/response schemas,
    - [database.py]      [get_db_connection] and [execute_query],
    - [observability.py] the Prometheus counters, the timer and the
      configuration of the exporter,
    - [main.py]          the FastAPI handlers.

    Handlers are computations in a state-and-exception monad over a
    [world] that holds the two tables, the metric registry, the logger,
    the tracer and the clock.  What the PostgreSQL server does at each
    connection is not decided by the program: it is read from a schedule
    kept in the world, so that every theorem quantified over worlds
    covers every pattern of store outages. *)

From Stdlib Require Import NArith Ascii String List Bool Lia DecimalString DecimalN
  Sorted.
From stdpp Require Import gmap strings list.

Local Open Scope string_scope.
Local Open Scope N_scope.

(** ** Python strings and integer formatting

    A Python [str] is modelled by [string]; a character stands for the
    code point of the same number (U+0000 to U+00FF). *)

Module PyStr.

(** [str.isdigit] on one character: the characters whose Unicode
    Numeric_Type is Digit or Decimal.  Below U+0100 these are the ten
    ASCII digits and the superscripts U+00B2, U+00B3 and U+00B9. *)
Definition isdigit_char (c : ascii) : bool :=
  let n := N_of_ascii c in
  ((48 <=? n) && (n <=? 57)) || (n =? 178) || (n =? 179) || (n =? 185).

(** [s.isdigit()]: every character is a digit and there is at least one. *)
Definition isdigit (s : string) : bool :=
  match s with
  | EmptyString => false
  | _ => forallb isdigit_char (list_ascii_of_string s)
  end.

(** [len(s)] *)
Definition len (s : string) : N := N.of_nat (String.length s).

(** [str(n)] for a non-negative [int]. *)
Definition of_int (n : N) : string := NilZero.string_of_uint (N.to_uint n).

(** [format(n, "0{width}d")] for a non-negative [int]: the decimal
    numeral, padded on the left with zeros up to [width] characters and
    left as it is when it is longer. *)
Definition zero_pad (width : nat) (n : N) : string :=
  let s := of_int n in
  string_of_list_ascii (repeat "0"%char (width - String.length s)) ++ s.

End PyStr.

(** ** models.py *)

Record PriorAuthRequest := {
  req_member_id : string;
  req_provider_npi : string;
  req_diagnosis_code : string;
  req_requested_service : string;
}.

Record PriorAuthResponse := {
  id : N;
  request_id : string;
  member_id : string;
  provider_npi : string;
  diagnosis_code : string;
  requested_service : string;
  status : string;
  created_at : N;
}.

Record ErrorInjection := { error_type : string }.

Record HealthCheck := {
  hc_status : string;
  hc_database : string;
  hc_timestamp : N;
}.

(** The [Field(..., min_length=a, max_length=b)] constraint of pydantic. *)
Definition Field (min_length max_length : N) (s : string) : bool :=
  (min_length <=? PyStr.len s) && (PyStr.len s <=? max_length).

(** The schema layer: the candidates for which [PriorAuthRequest(...)]
    is constructed, that is, the ones FastAPI hands to the handler. *)
Definition schema_admits (r : PriorAuthRequest) : bool :=
  Field 1 50 (req_member_id r)
  && Field 10 10 (req_provider_npi r)
  && Field 1 20 (req_diagnosis_code r)
  && Field 1 100 (req_requested_service r).

(** ** Exceptions *)

Inductive exn :=
| HTTPException (status_code : N) (detail : string)
| OperationalError (msg : string)   (* psycopg2: the connection failed *)
| DatabaseError (msg : string).     (* psycopg2: the statement failed *)

(** [str(e)] *)
Definition exn_str (e : exn) : string :=
  match e with
  | HTTPException c d => PyStr.of_int c ++ ": " ++ d
  | OperationalError m => m
  | DatabaseError m => m
  end.

Inductive result (A : Type) :=
| Ok (a : A)
| Raise (e : exn).
Arguments Ok {A} a.
Arguments Raise {A} e.

(** ** The world *)

(** A row of [request_logs]. *)
Record log_row := {
  log_request_id : string;
  log_event_type : string;
  log_message : string;
  log_timestamp : N;
}.

(** What the store does at one connection attempt. *)
Inductive db_event :=
| DbOk
| ConnectFails (msg : string)
| QueryFails (msg : string).

Inductive attr_value :=
| AttrStr (s : string)
| AttrInt (n : N).

Record span := {
  span_name : string;
  span_parent : option string;
  span_attributes : list (string * attr_value);
  span_error : bool;
}.

Inductive level := INFO | WARNING | ERROR.

Record world := {
  (* the store: two tables in insertion order, the sequence behind the
     surrogate key, and what the server does at the coming connections *)
  prior_auth_requests : list PriorAuthResponse;
  request_logs : list log_row;
  requests_serial : N;
  db_schedule : list db_event;
  (* observability.py: the three counters and the histogram (the number of
     observations per endpoint) *)
  requests_total : gmap (string * string) N;
  validation_failures : gmap string N;
  database_operations : gmap string N;
  request_duration : gmap string N;
  (* the [logging] records, oldest first *)
  logger : list (level * string);
  (* the tracer: spans being recorded (innermost first), spans ended *)
  open_spans : list span;
  spans : list span;
  (* [time]: seconds since the epoch, seconds spent in [time.sleep] *)
  clock : N;
  slept : N;
}.

Definition upd_requests (f : list PriorAuthResponse -> list PriorAuthResponse)
    (w : world) : world :=
  {| prior_auth_requests := f (prior_auth_requests w);
     request_logs := request_logs w; requests_serial := requests_serial w;
     db_schedule := db_schedule w; requests_total := requests_total w;
     validation_failures := validation_failures w;
     database_operations := database_operations w;
     request_duration := request_duration w; logger := logger w;
     open_spans := open_spans w; spans := spans w;
     clock := clock w; slept := slept w |}.

Definition upd_logs (f : list log_row -> list log_row) (w : world) : world :=
  {| prior_auth_requests := prior_auth_requests w;
     request_logs := f (request_logs w); requests_serial := requests_serial w;
     db_schedule := db_schedule w; requests_total := requests_total w;
     validation_failures := validation_failures w;
     database_operations := database_operations w;
     request_duration := request_duration w; logger := logger w;
     open_spans := open_spans w; spans := spans w;
     clock := clock w; slept := slept w |}.

Definition upd_serial (f : N -> N) (w : world) : world :=
  {| prior_auth_requests := prior_auth_requests w;
     request_logs := request_logs w; requests_serial := f (requests_serial w);
     db_schedule := db_schedule w; requests_total := requests_total w;
     validation_failures := validation_failures w;
     database_operations := database_operations w;
     request_duration := request_duration w; logger := logger w;
     open_spans := open_spans w; spans := spans w;
     clock := clock w; slept := slept w |}.

Definition upd_schedule (f : list db_event -> list db_event) (w : world) : world :=
  {| prior_auth_requests := prior_auth_requests w;
     request_logs := request_logs w; requests_serial := requests_serial w;
     db_schedule := f (db_schedule w); requests_total := requests_total w;
     validation_failures := validation_failures w;
     database_operations := database_operations w;
     request_duration := request_duration w; logger := logger w;
     open_spans := open_spans w; spans := spans w;
     clock := clock w; slept := slept w |}.

Definition upd_requests_total (f : gmap (string * string) N -> gmap (string * string) N)
    (w : world) : world :=
  {| prior_auth_requests := prior_auth_requests w;
     request_logs := request_logs w; requests_serial := requests_serial w;
     db_schedule := db_schedule w; requests_total := f (requests_total w);
     validation_failures := validation_failures w;
     database_operations := database_operations w;
     request_duration := request_duration w; logger := logger w;
     open_spans := open_spans w; spans := spans w;
     clock := clock w; slept := slept w |}.

Definition upd_validation_failures (f : gmap string N -> gmap string N)
    (w : world) : world :=
  {| prior_auth_requests := prior_auth_requests w;
     request_logs := request_logs w; requests_serial := requests_serial w;
     db_schedule := db_schedule w; requests_total := requests_total w;
     validation_failures := f (validation_failures w);
     database_operations := database_operations w;
     request_duration := request_duration w; logger := logger w;
     open_spans := open_spans w; spans := spans w;
     clock := clock w; slept := slept w |}.

Definition upd_database_operations (f : gmap string N -> gmap string N)
    (w : world) : world :=
  {| prior_auth_requests := prior_auth_requests w;
     request_logs := request_logs w; requests_serial := requests_serial w;
     db_schedule := db_schedule w; requests_total := requests_total w;
     validation_failures := validation_failures w;
     database_operations := f (database_operations w);
     request_duration := request_duration w; logger := logger w;
     open_spans := open_spans w; spans := spans w;
     clock := clock w; slept := slept w |}.

Definition upd_request_duration (f : gmap string N -> gmap string N)
    (w : world) : world :=
  {| prior_auth_requests := prior_auth_requests w;
     request_logs := request_logs w; requests_serial := requests_serial w;
     db_schedule := db_schedule w; requests_total := requests_total w;
     validation_failures := validation_failures w;
     database_operations := database_operations w;
     request_duration := f (request_duration w); logger := logger w;
     open_spans := open_spans w; spans := spans w;
     clock := clock w; slept := slept w |}.

Definition upd_logger (f : list (level * string) -> list (level * string))
    (w : world) : world :=
  {| prior_auth_requests := prior_auth_requests w;
     request_logs := request_logs w; requests_serial := requests_serial w;
     db_schedule := db_schedule w; requests_total := requests_total w;
     validation_failures := validation_failures w;
     database_operations := database_operations w;
     request_duration := request_duration w; logger := f (logger w);
     open_spans := open_spans w; spans := spans w;
     clock := clock w; slept := slept w |}.

Definition upd_tracer (f : list span * list span -> list span * list span)
    (w : world) : world :=
  {| prior_auth_requests := prior_auth_requests w;
     request_logs := request_logs w; requests_serial := requests_serial w;
     db_schedule := db_schedule w; requests_total := requests_total w;
     validation_failures := validation_failures w;
     database_operations := database_operations w;
     request_duration := request_duration w; logger := logger w;
     open_spans := fst (f (open_spans w, spans w));
     spans := snd (f (open_spans w, spans w));
     clock := clock w; slept := slept w |}.

Definition upd_sleep (seconds : N) (w : world) : world :=
  {| prior_auth_requests := prior_auth_requests w;
     request_logs := request_logs w; requests_serial := requests_serial w;
     db_schedule := db_schedule w; requests_total := requests_total w;
     validation_failures := validation_failures w;
     database_operations := database_operations w;
     request_duration := request_duration w; logger := logger w;
     open_spans := open_spans w; spans := spans w;
     clock := clock w + seconds; slept := slept w + seconds |}.



(** ** The monad of handlers: state and Python exceptions *)

Definition M (A : Type) : Type := world -> result A * world.

Definition ret {A} (a : A) : M A := fun w => (Ok a, w).

Definition bind {A B} (c : M A) (k : A -> M B) : M B :=
  fun w =>
    match c w with
    | (Ok a, w1) => k a w1
    | (Raise e, w1) => (Raise e, w1)
    end.

Definition raise {A} (e : exn) : M A := fun w => (Raise e, w).

(** [try: body / except Exception as e: handler e] *)
Definition try_except {A} (body : M A) (handler : exn -> M A) : M A :=
  fun w =>
    match body w with
    | (Ok a, w1) => (Ok a, w1)
    | (Raise e, w1) => handler e w1
    end.

Definition get {A} (f : world -> A) : M A := fun w => (Ok (f w), w).
Definition modify (f : world -> world) : M unit := fun w => (Ok tt, f w).

Declare Scope py_scope.
Delimit Scope py_scope with py.
Notation "x ← c ; k" := (bind c (fun x => k))
  (at level 20, c at level 100, k at level 200, only parsing) : py_scope.
Notation "c ;; k" := (bind c (fun _ => k))
  (at level 100, k at level 200, only parsing, right associativity) : py_scope.

Local Open Scope py_scope.

(** ** database.py

    The schema of the two tables is not part of the sources; the columns
    are the ones the statements of [main.py] name.  [id] comes from the
    table's sequence and [created_at], like the [timestamp] of a log row,
    from the clock at insertion.  [print] output is not modelled. *)

(** A connection, with what the server will do to the statement sent
    over it: [Some msg] when it will reject it. *)
Record connection := { conn_query_fault : option string }.

(** The event of the coming connection; a schedule that has run out means
    a store that serves every statement. *)
Definition next_db_event (w : world) : db_event := hd DbOk (db_schedule w).

Definition get_db_connection : M connection :=
  fun w =>
    let w1 := upd_schedule (@tail db_event) w in
    match next_db_event w with
    | ConnectFails msg => (Raise (OperationalError msg), w1)
    | DbOk => (Ok {| conn_query_fault := None |}, w1)
    | QueryFails msg => (Ok {| conn_query_fault := Some msg |}, w1)
    end.

(** The five statements of [main.py]. *)
Inductive query :=
| CountRequests
| InsertLog (request_id event_type message : string)
| InsertRequest (request_id member_id provider_npi diagnosis_code
                 requested_service : string)
| SelectRequests
| SelectLogs (request_id : string).

(** What [cursor.fetchall()] holds for each statement: the [count] column
    of the single row, the single [RETURNING] row, or the rows. *)
Definition query_result (q : query) : Type :=
  match q with
  | CountRequests => N
  | InsertLog _ _ _ => unit
  | InsertRequest _ _ _ _ _ => PriorAuthResponse
  | SelectRequests => list PriorAuthResponse
  | SelectLogs _ => list log_row
  end.

(** [ORDER BY key]: the rows in ascending order of [key].  PostgreSQL
    does not fix the order of rows with equal keys; the model keeps them
    in the order of their insertion. *)
Fixpoint insert_by {X} (key : X -> N) (x : X) (l : list X) : list X :=
  match l with
  | [] => [x]
  | y :: l' => if key x <=? key y then x :: l else y :: insert_by key x l'
  end.

Definition sort_by {X} (key : X -> N) (l : list X) : list X :=
  fold_right (insert_by key) [] l.

(** [cursor.execute(query, params)] followed by [conn.commit()].
    [ORDER BY created_at DESC LIMIT 100] is the first hundred rows of the
    descending order (of rows with equal [created_at], the later
    inserted first); [ORDER BY timestamp] the ascending order. *)
Definition db_apply (q : query) (w : world) : query_result q * world :=
  match q return query_result q * world with
  | CountRequests => (N.of_nat (length (prior_auth_requests w)), w)
  | InsertLog rid ev msg =>
      let row := {| log_request_id := rid; log_event_type := ev;
                    log_message := msg; log_timestamp := clock w |} in
      (tt, upd_logs (fun l => (l ++ [row])%list) w)
  | InsertRequest rid m npi d s =>
      let row := {| id := requests_serial w + 1; request_id := rid;
                    member_id := m; provider_npi := npi; diagnosis_code := d;
                    requested_service := s; status := "pending";
                    created_at := clock w |} in
      (row, upd_serial N.succ (upd_requests (fun l => (l ++ [row])%list) w))
  | SelectRequests =>
      (firstn 100 (rev (sort_by created_at (prior_auth_requests w))), w)
  | SelectLogs rid =>
      (sort_by log_timestamp
         (List.filter (fun r => String.eqb (log_request_id r) rid)
            (request_logs w)), w)
  end.

Definition fetched (q : query) (fetch : bool) : Type :=
  if fetch then query_result q else unit.

(** The statements that give rows to fetch: all but the insertion of an
    audit row, which has no [RETURNING]. *)
Definition returns_rows (q : query) : bool :=
  match q with
  | InsertLog _ _ _ => false
  | _ => true
  end.

(** [execute_query(query, params, fetch)]: a connection failure is raised
    before anything is sent; a failing statement is rolled back and its
    exception raised again, so the tables stay as they were.  So it is
    when [cursor.fetchall()] is asked for the rows of a statement that
    gives none: psycopg2 raises [ProgrammingError], a [DatabaseError],
    and the statement is rolled back. *)
Definition execute_query (q : query) (fetch : bool) : M (fetched q fetch) :=
  conn ← get_db_connection;
  match conn_query_fault conn with
  | Some msg => raise (DatabaseError msg)
  | None =>
      if fetch && negb (returns_rows q)
      then raise (DatabaseError "no results to fetch")
      else
        fun w =>
          let (results, w1) := db_apply q w in
          (Ok (if fetch return fetched q fetch then results else tt), w1)
  end.

(** ** observability.py *)

(** A labelled Prometheus counter starts at zero. *)
Definition counter_value `{Countable K} (m : gmap K N) (k : K) : N :=
  default 0 (m !! k).

(** [counter.labels(...).inc()] *)
Definition inc `{Countable K} (k : K) (m : gmap K N) : gmap K N :=
  <[k := counter_value m k + 1]> m.

Definition record_request (status endpoint : string) : M unit :=
  modify (upd_requests_total (inc (status, endpoint))).

Definition record_validation_failure (failure_type : string) : M unit :=
  modify (upd_validation_failures (inc failure_type)).

Definition record_database_operation (operation_type : string) : M unit :=
  modify (upd_database_operations (inc operation_type)).

(** [with RequestTimer(endpoint): body]: [__exit__] observes the duration
    on every exit and returns [None], so an exception goes on. *)
Definition RequestTimer {A} (endpoint : string) (body : M A) : M A :=
  fun w =>
    let (r, w1) := body w in
    (r, upd_request_duration (inc endpoint) w1).

(** What [generate_latest()] exposes: the four series. *)
Record snapshot := {
  snap_requests_total : gmap (string * string) N;
  snap_validation_failures : gmap string N;
  snap_database_operations : gmap string N;
  snap_request_duration : gmap string N;
}.

Definition metrics_endpoint : M snapshot :=
  get (fun w => {| snap_requests_total := requests_total w;
                   snap_validation_failures := validation_failures w;
                   snap_database_operations := database_operations w;
                   snap_request_duration := request_duration w |}).

(** ** The tracer, the logger and [time] *)

Definition is_raise {A} (r : result A) : bool :=
  match r with Ok _ => false | Raise _ => true end.

Definition new_span (name : string) (o : list span) : span :=
  {| span_name := name;
     span_parent := match o with [] => None | p :: _ => Some (span_name p) end;
     span_attributes := []; span_error := false |}.

Definition end_span (err : bool) (t : list span * list span) : list span * list span :=
  match fst t with
  | [] => t
  | s :: o =>
      (o, (snd t ++ [ {| span_name := span_name s; span_parent := span_parent s;
                         span_attributes := span_attributes s;
                         span_error := err |} ])%list)
  end.

(** [with tracer.start_as_current_span(name): body]: the span is ended on
    every exit, marked as failed when an exception leaves the block. *)
Definition start_as_current_span {A} (name : string) (body : M A) : M A :=
  fun w =>
    let (r, w1) := body (upd_tracer (fun t => (new_span name (fst t) :: fst t, snd t)) w) in
    (r, upd_tracer (end_span (is_raise r)) w1).

(** [span.set_attribute(key, value)] on the span of the enclosing block. *)
Definition set_attribute (key : string) (value : attr_value) : M unit :=
  modify (upd_tracer (fun t =>
    match fst t with
    | [] => t
    | s :: o =>
        ({| span_name := span_name s; span_parent := span_parent s;
            span_attributes := (span_attributes s ++ [(key, value)])%list;
            span_error := span_error s |} :: o, snd t)
    end)).

(** The pictographs that open some log messages are left out. *)
Definition log (l : level) (msg : string) : M unit :=
  modify (upd_logger (fun r => (r ++ [(l, msg)])%list)).

Definition sleep (seconds : N) : M unit := modify (upd_sleep seconds).

(** ** main.py *)

Definition get_next_request_id : M string :=
  count ← execute_query CountRequests true;
  ret ("PA-" ++ PyStr.zero_pad 5 (count + 1)).

Definition log_event (request_id event_type message : string) : M unit :=
  try_except
    (execute_query (InsertLog request_id event_type message) false;;
     log INFO ("Logged: " ++ request_id ++ " - " ++ event_type);;
     record_database_operation "insert_log")
    (fun e => log ERROR ("Failed to log event: " ++ exn_str e)).

(** [GET /] *)
Definition root : M (list (string * string)) :=
  record_request "success" "/";;
  ret [("message", "Prior Authorization API"); ("status", "running")].

(** [GET /health] *)
Definition health_check : M HealthCheck :=
  RequestTimer "/health"
    (try_except
       (conn ← get_db_connection;
        (* conn.close() *)
        record_request "success" "/health";;
        now ← get clock;
        ret {| hc_status := "healthy"; hc_database := "connected";
               hc_timestamp := now |})
       (fun _ =>
          record_request "error" "/health";;
          now ← get clock;
          ret {| hc_status := "unhealthy"; hc_database := "disconnected";
                 hc_timestamp := now |})).

(** [GET /metrics] *)
Definition metrics : M snapshot := metrics_endpoint.

(** The business rule of the [validate_npi] block: the condition under
    which the request is refused. *)
Definition npi_refused (provider_npi : string) : bool :=
  negb (PyStr.isdigit provider_npi) || negb (PyStr.len provider_npi =? 10).

(** [POST /prior-auth/submit] *)
Definition submit_prior_auth (request : PriorAuthRequest) : M PriorAuthResponse :=
  start_as_current_span "submit_prior_auth"
    (request_id ← get_next_request_id;
     (if String.eqb (req_member_id request) "M99999" then
        start_as_current_span "vip_member_slow_query"
          (set_attribute "delay_ms" (AttrInt 2000);;
           set_attribute "reason" (AttrStr "Simulating database contention");;
           log WARNING ("VIP member " ++ req_member_id request
                        ++ " - simulating 2s delay");;
           sleep 2;;
           log INFO ("Delay complete for " ++ request_id))
      else ret tt);;
     set_attribute "request.id" (AttrStr request_id);;
     set_attribute "request.member_id" (AttrStr (req_member_id request));;
     set_attribute "request.provider_npi" (AttrStr (req_provider_npi request));;
     log INFO ("Received request " ++ request_id ++ " from provider "
               ++ req_provider_npi request);;
     log_event request_id "REQUEST_RECEIVED"
       ("Submitted by provider NPI " ++ req_provider_npi request);;
     start_as_current_span "validate_npi"
       (if npi_refused (req_provider_npi request) then
          log WARNING ("Invalid NPI format: " ++ req_provider_npi request);;
          log_event request_id "VALIDATION_FAILED"
            ("Invalid NPI format: " ++ req_provider_npi request);;
          record_validation_failure "invalid_npi_format";;
          record_request "validation_error" "/prior-auth/submit";;
          raise (HTTPException 400 "Provider NPI must be exactly 10 digits")
        else ret tt);;
     request_id ← start_as_current_span "generate_request_id" get_next_request_id;
     log_event request_id "VALIDATION_PASSED" "All required fields validated";;
     result ← start_as_current_span "database_insert"
       (result ← execute_query
          (InsertRequest request_id (req_member_id request)
             (req_provider_npi request) (req_diagnosis_code request)
             (req_requested_service request)) true;
        record_database_operation "insert_request";;
        ret result);
     log_event request_id "SAVED_TO_DATABASE"
       ("Request saved for member " ++ req_member_id request);;
     log_event request_id "STATUS_PENDING" "Awaiting review";;
     log INFO ("Created " ++ request_id);;
     record_request "success" "/prior-auth/submit";;
     ret (result : PriorAuthResponse)).

(** [GET /prior-auth/requests] *)
Definition list_requests : M (list PriorAuthResponse) :=
  RequestTimer "/prior-auth/requests"
    (results ← execute_query SelectRequests true;
     record_database_operation "select_requests";;
     record_request "success" "/prior-auth/requests";;
     ret (results : list PriorAuthResponse)).

(** [GET /prior-auth/requests/{request_id}/logs] *)
Definition get_request_logs (request_id : string) : M (string * list log_row) :=
  logs ← execute_query (SelectLogs request_id) true;
  record_database_operation "select_logs";;
  ret (request_id, (logs : list log_row)).

(** [POST /prior-auth/test/errors] *)
Definition trigger_error (error : ErrorInjection) : M (list (string * string)) :=
  now ← get clock;
  let error_id := "ERROR-" ++ PyStr.of_int now in
  log WARNING ("Triggering " ++ error_type error);;
  log_event error_id "ERROR_TEST_STARTED" ("Testing " ++ error_type error);;
  if String.eqb (error_type error) "database_timeout" then
    log_event error_id "DATABASE_SLOW" "Simulating 5 second timeout";;
    sleep 5;;
    log_event error_id "DATABASE_TIMEOUT" "Query exceeded timeout threshold";;
    record_request "timeout_error" "/prior-auth/test/errors";;
    raise (HTTPException 503 "Database timeout")
  else if String.eqb (error_type error) "validation_error" then
    log_event error_id "VALIDATION_ERROR" "Missing required field";;
    record_request "validation_error" "/prior-auth/test/errors";;
    raise (HTTPException 400 "Validation failed")
  else
    ret [("error_triggered", error_type error)].

(** ** Serialized invocation: one operation after the other *)

Inductive operation :=
| OpRoot
| OpHealth
| OpMetrics
| OpSubmit (request : PriorAuthRequest)
| OpListRequests
| OpRequestLogs (request_id : string)
| OpTriggerError (error : ErrorInjection).

Inductive response :=
| RespRoot (body : list (string * string))
| RespHealth (body : HealthCheck)
| RespMetrics (body : snapshot)
| RespSubmit (body : PriorAuthResponse)
| RespListRequests (body : list PriorAuthResponse)
| RespRequestLogs (body : string * list log_row)
| RespTriggerError (body : list (string * string)).

Definition fmap_result {A B} (f : A -> B) (p : result A * world) : result B * world :=
  match p with
  | (Ok a, w) => (Ok (f a), w)
  | (Raise e, w) => (Raise e, w)
  end.

Definition exec (op : operation) : M response :=
  fun w =>
    match op with
    | OpRoot => fmap_result RespRoot (root w)
    | OpHealth => fmap_result RespHealth (health_check w)
    | OpMetrics => fmap_result RespMetrics (metrics w)
    | OpSubmit request => fmap_result RespSubmit (submit_prior_auth request w)
    | OpListRequests => fmap_result RespListRequests (list_requests w)
    | OpRequestLogs rid => fmap_result RespRequestLogs (get_request_logs rid w)
    | OpTriggerError error => fmap_result RespTriggerError (trigger_error error w)
    end.

(** A serialized run: each operation starts in the world the previous one
    left, whether it returned or raised. *)
Fixpoint run (ops : list operation) (w : world) : list (result response) * world :=
  match ops with
  | [] => ([], w)
  | op :: ops' =>
      let (r, w1) := exec op w in
      let (rs, w2) := run ops' w1 in
      (r :: rs, w2)
  end.

(** A world to compute with: empty tables, nothing recorded yet, and a
    given schedule for the store. *)
Definition fresh (schedule : list db_event) : world :=
  {| prior_auth_requests := []; request_logs := []; requests_serial := 0;
     db_schedule := schedule; requests_total := ∅; validation_failures := ∅;
     database_operations := ∅; request_duration := ∅; logger := [];
     open_spans := []; spans := []; clock := 1700000000; slept := 0 |}.

Definition demo_valid : PriorAuthRequest :=
  {| req_member_id := "M10001"; req_provider_npi := "1234567890";
     req_diagnosis_code := "E11.9"; req_requested_service := "MRI_BRAIN" |}.

Definition demo_invalid : PriorAuthRequest :=
  {| req_member_id := "M20002"; req_provider_npi := "ABCDEFGHIJ";
     req_diagnosis_code := "E11"; req_requested_service := "TEST" |}.


(** A candidate of the member whose submissions are delayed. *)
Definition demo_vip : PriorAuthRequest :=
  {| req_member_id := "M99999"; req_provider_npi := "1234567890";
     req_diagnosis_code := "E11.9"; req_requested_service := "MRI_BRAIN" |}.

(** * Vocabulary of the statements *)

(** ** Observations on a world *)

(** The event the store has in stock for the [k]-th connection from now. *)
Fixpoint after (k : nat) (l : list db_event) : list db_event :=
  match k with
  | O => l
  | S k' => after k' (tail l)
  end.

Definition db_event_at (k : nat) (w : world) : db_event :=
  hd DbOk (after k (db_schedule w)).

Definition db_ok (k : nat) (w : world) : bool :=
  match db_event_at k w with DbOk => true | _ => false end.

(** The store serves the next [n] statements. *)
Definition db_healthy (n : nat) (w : world) : Prop :=
  forall k, (k < n)%nat -> db_event_at k w = DbOk.

(** [COUNT( * )] of [prior_auth_requests]. *)
Definition count_requests (w : world) : N :=
  N.of_nat (length (prior_auth_requests w)).

(** The identifier with number [n], and the one [get_next_request_id]
    derives from a world. *)
Definition request_id_of (n : N) : string := "PA-" ++ PyStr.zero_pad 5 n.

Definition next_id (w : world) : string := request_id_of (count_requests w + 1).

(** The seconds a submission spends in the delay of member [M99999]. *)
Definition vip_delay (request : PriorAuthRequest) : N :=
  if String.eqb (req_member_id request) "M99999" then 2 else 0.

(** The row a submission stores when it starts in [w]. *)
Definition stored_record (request : PriorAuthRequest) (w : world) : PriorAuthResponse :=
  {| id := requests_serial w + 1; request_id := next_id w;
     member_id := req_member_id request;
     provider_npi := req_provider_npi request;
     diagnosis_code := req_diagnosis_code request;
     requested_service := req_requested_service request;
     status := "pending"; created_at := clock w + vip_delay request |}.

(** The audit rows of a submission, each with the position of its write
    in the schedule of the store. *)
Definition audit_row (request : PriorAuthRequest) (w : world)
    (event_type message : string) : log_row :=
  {| log_request_id := next_id w; log_event_type := event_type;
     log_message := message; log_timestamp := clock w + vip_delay request |}.

Definition row_received request w : log_row :=
  audit_row request w "REQUEST_RECEIVED"
    ("Submitted by provider NPI " ++ req_provider_npi request).
Definition row_failed request w : log_row :=
  audit_row request w "VALIDATION_FAILED"
    ("Invalid NPI format: " ++ req_provider_npi request).
Definition row_passed request w : log_row :=
  audit_row request w "VALIDATION_PASSED" "All required fields validated".
Definition row_saved request w : log_row :=
  audit_row request w "SAVED_TO_DATABASE"
    ("Request saved for member " ++ req_member_id request).
Definition row_pending request w : log_row :=
  audit_row request w "STATUS_PENDING" "Awaiting review".

(** The exception [execute_query] raises for an event of the store. *)
Definition store_error (e : db_event) : option exn :=
  match e with
  | DbOk => None
  | ConnectFails m => Some (OperationalError m)
  | QueryFails m => Some (DatabaseError m)
  end.

Definition success_count (w : world) : N :=
  counter_value (requests_total w) ("success", "/prior-auth/submit").


Definition npi_failure_count (w : world) : N :=
  counter_value (validation_failures w) "invalid_npi_format".

Definition db_operation_count (operation_type : string) (w : world) : N :=
  counter_value (database_operations w) operation_type.

(** The audit trail of an identifier: the event types of its rows, in the
    order of the table. *)
Definition audit_trail (rid : string) (w : world) : list string :=
  map log_event_type
    (List.filter (fun r => String.eqb (log_request_id r) rid) (request_logs w)).

(** [x] when the flag holds, nothing otherwise. *)
Definition when {X} (b : bool) (x : X) : list X := if b then [x] else [].

(** The counter of database operations after an audit write. *)
Definition bump (written : bool) (m : gmap string N) : gmap string N :=
  if written then inc "insert_log" m else m.

(** The classified error of a refused submission. *)
Definition validation_detail : string := "Provider NPI must be exactly 10 digits".
Definition ValidationError : exn := HTTPException 400 validation_detail.

(** ** The paths of a submission

    The store is consulted at fixed positions of its schedule: 0 for the
    first count, 1 for REQUEST_RECEIVED, then either 2 for
    VALIDATION_FAILED, or 2 for the second count, 3 for VALIDATION_PASSED,
    4 for the insertion, 5 for SAVED_TO_DATABASE and 6 for STATUS_PENDING.
    The definitions below describe, path by path, what a submission
    returns and what it leaves in the world; [submit_spec] proves that
    [submit_prior_auth] does exactly that. *)

Inductive submit_path :=
| IdFailed (e : exn)       (* the first count failed *)
| Refused                  (* the identifier of the provider was refused *)
| RegenFailed (e : exn)    (* the second count failed *)
| InsertFailed (e : exn)   (* the insertion failed *)
| Created.

Definition path_of (request : PriorAuthRequest) (w : world) : submit_path :=
  match store_error (db_event_at 0 w) with
  | Some e => IdFailed e
  | None =>
      if npi_refused (req_provider_npi request) then Refused
      else match store_error (db_event_at 2 w) with
           | Some e => RegenFailed e
           | None =>
               match store_error (db_event_at 4 w) with
               | Some e => InsertFailed e
               | None => Created
               end
           end
  end.

Definition result_of (request : PriorAuthRequest) (w : world) (p : submit_path)
    : result PriorAuthResponse :=
  match p with
  | IdFailed e | RegenFailed e | InsertFailed e => Raise e
  | Refused => Raise ValidationError
  | Created => Ok (stored_record request w)
  end.

Definition stored_of (request : PriorAuthRequest) (w : world) (p : submit_path)
    : list PriorAuthResponse :=
  match p with
  | Created => [stored_record request w]
  | _ => []
  end.

Definition serial_of (p : submit_path) (n : N) : N :=
  match p with
  | Created => N.succ n
  | _ => n
  end.

Definition rows_of (request : PriorAuthRequest) (w : world) (p : submit_path)
    : list log_row :=
  match p with
  | IdFailed _ => []
  | Refused =>
      when (db_ok 1 w) (row_received request w)
      ++ when (db_ok 2 w) (row_failed request w)
  | RegenFailed _ => when (db_ok 1 w) (row_received request w)
  | InsertFailed _ =>
      when (db_ok 1 w) (row_received request w)
      ++ when (db_ok 3 w) (row_passed request w)
  | Created =>
      when (db_ok 1 w) (row_received request w)
      ++ when (db_ok 3 w) (row_passed request w)
      ++ when (db_ok 5 w) (row_saved request w)
      ++ when (db_ok 6 w) (row_pending request w)
  end%list.

(** The number of connections the call asks of the store. *)
Definition connections_of (p : submit_path) : nat :=
  match p with
  | IdFailed _ => 1
  | Refused | RegenFailed _ => 3
  | InsertFailed _ => 5
  | Created => 7
  end.

Definition requests_total_of (p : submit_path) (m : gmap (string * string) N)
    : gmap (string * string) N :=
  match p with
  | Created => inc ("success", "/prior-auth/submit") m
  | Refused => inc ("validation_error", "/prior-auth/submit") m
  | _ => m
  end.

Definition validation_failures_of (p : submit_path) (m : gmap string N)
    : gmap string N :=
  match p with
  | Refused => inc "invalid_npi_format" m
  | _ => m
  end.

Definition database_operations_of (w : world) (p : submit_path) (m : gmap string N)
    : gmap string N :=
  match p with
  | IdFailed _ => m
  | Refused => bump (db_ok 2 w) (bump (db_ok 1 w) m)
  | RegenFailed _ => bump (db_ok 1 w) m
  | InsertFailed _ => bump (db_ok 3 w) (bump (db_ok 1 w) m)
  | Created =>
      bump (db_ok 6 w) (bump (db_ok 5 w)
        (inc "insert_request" (bump (db_ok 3 w) (bump (db_ok 1 w) m))))
  end.

Definition delay_of (request : PriorAuthRequest) (p : submit_path) : N :=
  match p with
  | IdFailed _ => 0
  | _ => vip_delay request
  end.

(** The spans of the call, in the order they end: the children, then the
    root. *)
Definition child_span (name : string) (attributes : list (string * attr_value))
    (err : bool) : span :=
  {| span_name := name; span_parent := Some "submit_prior_auth";
     span_attributes := attributes; span_error := err |}.

Definition vip_spans (request : PriorAuthRequest) : list span :=
  if String.eqb (req_member_id request) "M99999"
  then [child_span "vip_member_slow_query"
          [("delay_ms", AttrInt 2000);
           ("reason", AttrStr "Simulating database contention")] false]
  else [].

Definition root_attributes (request : PriorAuthRequest) (w : world)
    : list (string * attr_value) :=
  [("request.id", AttrStr (next_id w));
   ("request.member_id", AttrStr (req_member_id request));
   ("request.provider_npi", AttrStr (req_provider_npi request))].

Definition root_span (w : world) (attributes : list (string * attr_value))
    (err : bool) : span :=
  {| span_name := "submit_prior_auth";
     span_parent := match open_spans w with
                    | [] => None
                    | p :: _ => Some (span_name p)
                    end;
     span_attributes := attributes; span_error := err |}.

Definition spans_of (request : PriorAuthRequest) (w : world) (p : submit_path)
    : list span :=
  match p with
  | IdFailed _ => [root_span w [] true]
  | Refused =>
      vip_spans request
      ++ [child_span "validate_npi" [] true;
          root_span w (root_attributes request w) true]
  | RegenFailed _ =>
      vip_spans request
      ++ [child_span "validate_npi" [] false;
          child_span "generate_request_id" [] true;
          root_span w (root_attributes request w) true]
  | InsertFailed _ =>
      vip_spans request
      ++ [child_span "validate_npi" [] false;
          child_span "generate_request_id" [] false;
          child_span "database_insert" [] true;
          root_span w (root_attributes request w) true]
  | Created =>
      vip_spans request
      ++ [child_span "validate_npi" [] false;
          child_span "generate_request_id" [] false;
          child_span "database_insert" [] false;
          root_span w (root_attributes request w) false]
  end%list.

(** What [submit_prior_auth request] does from [w]: its result [r] and
    the world [w'] it leaves (the [logging] records apart). *)
Record submit_post (request : PriorAuthRequest) (w : world)
    (r : result PriorAuthResponse) (w' : world) : Prop := {
  post_result : r = result_of request w (path_of request w);
  post_requests :
    prior_auth_requests w' =
    (prior_auth_requests w ++ stored_of request w (path_of request w))%list;
  post_logs :
    request_logs w' =
    (request_logs w ++ rows_of request w (path_of request w))%list;
  post_serial :
    requests_serial w' = serial_of (path_of request w) (requests_serial w);
  post_schedule :
    db_schedule w' = after (connections_of (path_of request w)) (db_schedule w);
  post_requests_total :
    requests_total w' = requests_total_of (path_of request w) (requests_total w);
  post_validation_failures :
    validation_failures w' =
    validation_failures_of (path_of request w) (validation_failures w);
  post_database_operations :
    database_operations w' =
    database_operations_of w (path_of request w) (database_operations w);
  post_request_duration : request_duration w' = request_duration w;
  post_open_spans : open_spans w' = open_spans w;
  post_spans : spans w' = (spans w ++ spans_of request w (path_of request w))%list;
  post_clock : clock w' = clock w + delay_of request (path_of request w);
  post_slept : slept w' = slept w + delay_of request (path_of request w);
}.

(** ** The words of the specification *)

(** Ten characters that [str.isdigit] takes for digits: the identifiers
    the test of [validate_npi] lets through. *)
Definition exactly_10_digits (s : string) : bool :=
  Nat.eqb (String.length s) 10
  && forallb PyStr.isdigit_char (list_ascii_of_string s).

Definition ascii_digit (c : ascii) : bool :=
  (48 <=? N_of_ascii c) && (N_of_ascii c <=? 57).




(** The pattern [PA-\d{5}], matched against the whole identifier. *)
Definition matches_PA_5_digits (s : string) : bool :=
  match s with
  | String "P" (String "A" (String "-"
      (String d1 (String d2 (String d3 (String d4 (String d5 EmptyString))))))) =>
      forallb ascii_digit [d1; d2; d3; d4; d5]
  | _ => false
  end.


(** The two event sets of the audit trail. *)
Definition failure_events : list string :=
  ["REQUEST_RECEIVED"; "VALIDATION_FAILED"].
Definition success_events : list string :=
  ["REQUEST_RECEIVED"; "VALIDATION_PASSED"; "SAVED_TO_DATABASE"; "STATUS_PENDING"].

(** How a call of a run ended, as the counters see it. *)
Definition submit_succeeded (op : operation) (r : result response) : bool :=
  match op, r with
  | OpSubmit _, Ok _ => true
  | _, _ => false
  end.

Definition submit_refused (op : operation) (r : result response) : bool :=
  match op, r with
  | OpSubmit _, Raise (HTTPException 400 _) => true
  | _, _ => false
  end.

Definition tally (p : operation -> result response -> bool)
    (ops : list operation) (rs : list (result response)) : N :=
  N.of_nat (length (List.filter (fun x => p (fst x) (snd x)) (combine ops rs))).

(** The identifiers of the records a run returned, oldest first. *)
Fixpoint returned_ids (rs : list (result response)) : list string :=
  match rs with
  | [] => []
  | Ok (RespSubmit resp) :: rs' => request_id resp :: returned_ids rs'
  | _ :: rs' => returned_ids rs'
  end.

(** A store that already holds [n] records. *)
Definition crowded (n : N) (schedule : list db_event) : world :=
  upd_requests
    (fun _ => repeat {| id := 0; request_id := "PA-00000"; member_id := "M";
                        provider_npi := "0000000000"; diagnosis_code := "D";
                        requested_service := "S"; status := "pending";
                        created_at := 0 |} (N.to_nat n))
    (fresh schedule).

(** ** Weakest preconditions *)

Definition wp {A} (c : M A) (Q : result A -> world -> Prop) (w : world) : Prop :=
  Q (fst (c w)) (snd (c w)).

Definition fetch_value (q : query) (fetch : bool) (v : query_result q) : fetched q fetch :=
  if fetch return fetched q fetch then v else tt.

(** The world [log_event] leaves: the row, the INFO record and the counter
    when the store took the row; the ERROR record otherwise. *)
Definition log_event_world (request_id event_type message : string) (w : world) : world :=
  {| prior_auth_requests := prior_auth_requests w;
     request_logs :=
       request_logs w ++
       when (db_ok 0 w) {| log_request_id := request_id;
                           log_event_type := event_type;
                           log_message := message;
                           log_timestamp := clock w |};
     requests_serial := requests_serial w;
     db_schedule := tail (db_schedule w);
     requests_total := requests_total w;
     validation_failures := validation_failures w;
     database_operations := bump (db_ok 0 w) (database_operations w);
     request_duration := request_duration w;
     logger :=
       logger w ++
       [match db_event_at 0 w with
        | DbOk => (INFO, ("Logged: " ++ request_id ++ " - " ++ event_type)%string)
        | ConnectFails m | QueryFails m =>
            (ERROR, ("Failed to log event: " ++ m)%string)
        end];
     open_spans := open_spans w; spans := spans w;
     clock := clock w; slept := slept w |}%list.

(** Bounded universal check, for statements settled by evaluation. *)
Fixpoint all_from (p : N -> bool) (fuel : nat) (n : N) : bool :=
  match fuel with
  | O => true
  | S fuel' => p n && all_from p fuel' (N.succ n)
  end.

(** ** Reference outcomes *)

(** The three branches of [trigger_error]. *)
Definition injected (error : ErrorInjection) : result (list (string * string)) :=
  if String.eqb (error_type error) "database_timeout"
  then Raise (HTTPException 503 "Database timeout")
  else if String.eqb (error_type error) "validation_error"
       then Raise (HTTPException 400 "Validation failed")
       else Ok [("error_triggered", error_type error)].

Definition injected_delay (error : ErrorInjection) : N :=
  if String.eqb (error_type error) "database_timeout" then 5 else 0.

(** The errors that come from the store, as opposed to the ones the
    handlers raise themselves. *)
Definition from_store (e : exn) : bool :=
  match e with
  | HTTPException _ _ => false
  | _ => true
  end.

(** A store that serves the statements of a submission and rejects
    every audit write. *)
Definition audit_down : list db_event :=
  [DbOk; ConnectFails "down"; DbOk; ConnectFails "down"; DbOk;
   ConnectFails "down"; ConnectFails "down"].

(** ** Vocabulary of the further properties *)

(** The identifier [trigger_error] gives to a test: [ERROR-] and the
    seconds of the clock when the handler is entered. *)
Definition error_id (w : world) : string := "ERROR-" ++ PyStr.of_int (clock w).

Definition error_row (w : world) (event_type message : string) (delay : N)
    : log_row :=
  {| log_request_id := error_id w; log_event_type := event_type;
     log_message := message; log_timestamp := clock w + delay |}.

(** The audit rows of a test, each with the position of its write in the
    schedule of the store. *)
Definition trigger_rows (error : ErrorInjection) (w : world) : list log_row :=
  (when (db_ok 0 w)
     (error_row w "ERROR_TEST_STARTED" ("Testing " ++ error_type error) 0)
   ++ if String.eqb (error_type error) "database_timeout" then
        when (db_ok 1 w)
          (error_row w "DATABASE_SLOW" "Simulating 5 second timeout" 0)
        ++ when (db_ok 2 w)
             (error_row w "DATABASE_TIMEOUT" "Query exceeded timeout threshold" 5)
      else if String.eqb (error_type error) "validation_error" then
        when (db_ok 1 w)
          (error_row w "VALIDATION_ERROR" "Missing required field" 0)
      else [])%list.

(** The table is numbered when its records carry, in the order of their
    insertion, the identifiers of 1, 2, 3 and so on. *)
Definition numbered (w : world) : Prop :=
  forall i r, prior_auth_requests w !! i = Some r ->
              request_id r = request_id_of (N.of_nat i + 1).

(** The number a string of decimal digits stands for. *)
Definition decimal_value (s : string) : option N :=
  match NilEmpty.uint_of_string s with
  | Some d => Some (N.of_uint d)
  | None => None
  end.

(** The rows of the audit table with a given identifier. *)
Definition rows_with (rid : string) (l : list log_row) : list log_row :=
  List.filter (fun r => String.eqb (log_request_id r) rid) l.

(** The records a run returned, oldest first. *)
Fixpoint returned_records (rs : list (result response)) : list PriorAuthResponse :=
  match rs with
  | [] => []
  | Ok (RespSubmit resp) :: rs' => resp :: returned_records rs'
  | _ :: rs' => returned_records rs'
  end.

(** ** observability.py: the configuration of the exporter

    [setup_tracing] computes, from the environment, the attributes of
    the resource and the arguments of the OTLP exporter; the calls that
    install the tracer provider and instrument the application are not
    modelled, nor is [print].  The environment is the one [load_dotenv]
    has completed. *)

Module Str.

(** [c.isspace()]: below U+0100, the characters TAB to CR, FS to US, the
    space, NEL and the no-break space. *)
Definition isspace (c : ascii) : bool :=
  let n := N_of_ascii c in
  ((9 <=? n) && (n <=? 13)) || ((28 <=? n) && (n <=? 32))
  || (n =? 133) || (n =? 160).

(** [c in chars] *)
Definition among (chars : string) (c : ascii) : bool :=
  existsb (Ascii.eqb c) (list_ascii_of_string chars).

Fixpoint lstrip_by (p : ascii -> bool) (s : string) : string :=
  match s with
  | EmptyString => EmptyString
  | String c s' => if p c then lstrip_by p s' else s
  end.

Fixpoint rstrip_by (p : ascii -> bool) (s : string) : string :=
  match s with
  | EmptyString => EmptyString
  | String c s' =>
      match rstrip_by p s' with
      | EmptyString => if p c then EmptyString else String c EmptyString
      | t => String c t
      end
  end.

Definition strip_by (p : ascii -> bool) (s : string) : string :=
  lstrip_by p (rstrip_by p s).

(** [s.strip()], [s.strip(chars)] and [s.rstrip(chars)] *)
Definition strip (s : string) : string := strip_by isspace s.
Definition strip_chars (chars s : string) : string := strip_by (among chars) s.
Definition rstrip_chars (chars s : string) : string := rstrip_by (among chars) s.

(** All characters of [s] pass the test. *)
Fixpoint all_by (p : ascii -> bool) (s : string) : bool :=
  match s with
  | EmptyString => true
  | String c s' => p c && all_by p s'
  end.

(** [c in s], for one character *)
Fixpoint contains (c : ascii) (s : string) : bool :=
  match s with
  | EmptyString => false
  | String c' s' => Ascii.eqb c' c || contains c s'
  end.

(** [s.split(sep)], for a separator of one character *)
Fixpoint split (sep : ascii) (s : string) : list string :=
  match s with
  | EmptyString => [EmptyString]
  | String c s' =>
      if Ascii.eqb c sep then EmptyString :: split sep s'
      else match split sep s' with
           | t :: ts => String c t :: ts
           | [] => [String c EmptyString]
           end
  end.

(** [s.split(sep, 1)] *)
Fixpoint split1 (sep : ascii) (s : string) : list string :=
  match s with
  | EmptyString => [EmptyString]
  | String c s' =>
      if Ascii.eqb c sep then [EmptyString; s']
      else match split1 sep s' with
           | t :: ts => String c t :: ts
           | [] => [String c EmptyString]
           end
  end.

End Str.

(** The double quote (U+0022), as a string of one character. *)
Definition double_quote : string := String "034"%char EmptyString.

Record OTLPSpanExporter := {
  exporter_endpoint : string;
  exporter_headers : gmap string string;
}.

Record tracing := {
  resource : list (string * string);
  span_exporter : option OTLPSpanExporter;
}.

(** The body of the loop of [setup_tracing] over the entries of
    [OTEL_HEADERS_RAW]: an entry without [=] is passed over. *)
Definition header_step (headers_dict : gmap string string) (header_pair : string)
    : gmap string string :=
  let header_pair := Str.strip header_pair in
  if Str.contains "=" header_pair then
    match Str.split1 "=" header_pair with
    | [key; value] => <[Str.strip key := Str.strip value]> headers_dict
    | _ => headers_dict
    end
  else headers_dict.

(** [headers_dict] as [setup_tracing] builds it from [OTEL_HEADERS_RAW]. *)
Definition headers_dict_of (OTEL_HEADERS_RAW : string) : gmap string string :=
  if String.eqb OTEL_HEADERS_RAW EmptyString then ∅
  else
    let headers_str :=
      Str.strip_chars "'" (Str.strip_chars double_quote OTEL_HEADERS_RAW) in
    fold_left header_step (Str.split "," headers_str) ∅.

(** [os.getenv(key, default)] is [default default (environ !! key)]. *)
Definition setup_tracing (environ : gmap string string) : tracing :=
  let SERVICE_NAME := default "prior-auth-api" (environ !! "OTEL_SERVICE_NAME") in
  let OTEL_ENDPOINT := environ !! "OTEL_EXPORTER_OTLP_ENDPOINT" in
  let OTEL_HEADERS_RAW := default EmptyString (environ !! "OTEL_EXPORTER_OTLP_HEADERS") in
  {| resource :=
       [("service.name", SERVICE_NAME);
        ("service.version", "1.0.0");
        ("deployment.environment", default "development" (environ !! "ENV"))];
     span_exporter :=
       match OTEL_ENDPOINT with
       | None | Some EmptyString => None
       | Some endpoint =>
           Some {| exporter_endpoint :=
                     Str.rstrip_chars "/" endpoint ++ "/v1/traces";
                   exporter_headers := headers_dict_of OTEL_HEADERS_RAW |}
       end |}.

(** The value of [OTEL_EXPORTER_OTLP_HEADERS] that lists the given
    headers: [key=value] entries separated by commas. *)
Fixpoint render_headers (pairs : list (string * string)) : string :=
  match pairs with
  | [] => EmptyString
  | (key, value) :: rest =>
      key ++ "=" ++ value
      ++ match rest with
         | [] => EmptyString
         | _ => "," ++ render_headers rest
         end
  end.

(** A header that can be written in such a list as it is. *)
Definition plain_header (kv : string * string) : Prop :=
  Str.contains "=" (fst kv) = false
  /\ Str.contains "," (fst kv) = false
  /\ Str.contains "," (snd kv) = false
  /\ Str.strip (fst kv) = fst kv
  /\ Str.strip (snd kv) = snd kv.

(** One entry, as it is written in the list. *)
Definition render_header (kv : string * string) : string :=
  fst kv ++ "=" ++ snd kv.

(** The dictionary the headers make, a later entry replacing an earlier
    one with the same key. *)
Definition dict_of (pairs : list (string * string)) : gmap string string :=
  fold_left (fun d kv => <[fst kv := snd kv]> d) pairs ∅.

(** * Reasoning about handlers *)

(** ** Rules of the weakest precondition *)

Section WpRules.
Context {A B : Type}.
Implicit Types (Q : result A -> world -> Prop) (w : world).

Lemma wp_ret (a : A) Q w : Q (Ok a) w -> wp (ret a) Q w.
Proof. exact (fun H => H). Qed.

Lemma wp_raise (e : exn) Q w : Q (Raise e) w -> wp (raise e) Q w.
Proof. exact (fun H => H). Qed.

Lemma wp_get (f : world -> A) Q w : Q (Ok (f w)) w -> wp (get f) Q w.
Proof. exact (fun H => H). Qed.

Lemma wp_bind (c : M A) (k : A -> M B) (Q : result B -> world -> Prop) w :
  wp c (fun r w1 => match r with
                    | Ok a => wp (k a) Q w1
                    | Raise e => Q (Raise e) w1
                    end) w ->
  wp (bind c k) Q w.
Proof. unfold wp, bind. destruct (c w) as [[a|e] w1]; auto. Qed.

Lemma wp_try_except (body : M A) (handler : exn -> M A) Q w :
  wp body (fun r w1 => match r with
                       | Ok a => Q (Ok a) w1
                       | Raise e => wp (handler e) Q w1
                       end) w ->
  wp (try_except body handler) Q w.
Proof. unfold wp, try_except. destruct (body w) as [[a|e] w1]; auto. Qed.

Lemma wp_span name (body : M A) Q w :
  wp body (fun r w1 => Q r (upd_tracer (end_span (is_raise r)) w1))
    (upd_tracer (fun t => (new_span name (fst t) :: fst t, snd t)) w) ->
  wp (start_as_current_span name body) Q w.
Proof. unfold wp, start_as_current_span. destruct (body _) as [r w1]; auto. Qed.

Lemma wp_timer endpoint (body : M A) Q w :
  wp body (fun r w1 => Q r (upd_request_duration (inc endpoint) w1)) w ->
  wp (RequestTimer endpoint body) Q w.
Proof. unfold wp, RequestTimer. destruct (body w) as [r w1]; auto. Qed.

End WpRules.

Lemma wp_modify (f : world -> world) Q w : Q (Ok tt) (f w) -> wp (modify f) Q w.
Proof. exact (fun H => H). Qed.

Lemma wp_get_db_connection Q w :
  match next_db_event w with
  | DbOk => Q (Ok {| conn_query_fault := None |}) (upd_schedule (@tail _) w)
  | ConnectFails m => Q (Raise (OperationalError m)) (upd_schedule (@tail _) w)
  | QueryFails m => Q (Ok {| conn_query_fault := Some m |}) (upd_schedule (@tail _) w)
  end ->
  wp get_db_connection Q w.
Proof. unfold wp, get_db_connection. destruct (next_db_event w); auto. Qed.

Lemma wp_execute_query q fetch Q w :
  fetch && negb (returns_rows q) = false ->
  match next_db_event w with
  | DbOk => Q (Ok (fetch_value q fetch (fst (db_apply q (upd_schedule (@tail _) w)))))
              (snd (db_apply q (upd_schedule (@tail _) w)))
  | ConnectFails m => Q (Raise (OperationalError m)) (upd_schedule (@tail _) w)
  | QueryFails m => Q (Raise (DatabaseError m)) (upd_schedule (@tail _) w)
  end ->
  wp (execute_query q fetch) Q w.
Proof.
  unfold wp, execute_query, bind, get_db_connection, raise. intros ->.
  destruct (next_db_event w); cbn [conn_query_fault]; auto.
  destruct (db_apply q _); auto.
Qed.

(** [get_next_request_id] reads the table and nothing else. *)
Lemma wp_get_next_request_id Q w :
  match next_db_event w with
  | DbOk => forall rid, rid = next_id w -> Q (Ok rid) (upd_schedule (@tail _) w)
  | ConnectFails m => Q (Raise (OperationalError m)) (upd_schedule (@tail _) w)
  | QueryFails m => Q (Raise (DatabaseError m)) (upd_schedule (@tail _) w)
  end ->
  wp get_next_request_id Q w.
Proof.
  intros H. unfold get_next_request_id.
  apply wp_bind, wp_execute_query; [reflexivity|].
  destruct (next_db_event w); auto. by apply H.
Qed.

(** [log_event] always returns, in the world [log_event_world]. *)
Lemma log_event_eq rid ev msg w :
  log_event rid ev msg w = (Ok tt, log_event_world rid ev msg w).
Proof.
  cbv [log_event try_except bind execute_query get_db_connection raise log
       record_database_operation modify log_event_world db_ok db_event_at
       after next_db_event bump].
  destruct w as [rq lg ser sch rt vf dbo rd lgr os sp clk sl]; cbn.
  destruct (hd DbOk sch); cbn; rewrite ?app_nil_r; reflexivity.
Qed.

Lemma wp_log_event rid ev msg Q w :
  Q (Ok tt) (log_event_world rid ev msg w) -> wp (log_event rid ev msg) Q w.
Proof. unfold wp. rewrite log_event_eq. auto. Qed.

(** ** Symbolic execution

    The world is kept as a record of its fields: after each step the
    updates are computed away, so that every check is about one step. *)

Lemma wp_world_eq {A} (c : M A) Q w w' : w = w' -> wp c Q w' -> wp c Q w.
Proof. by intros ->. Qed.

Lemma wp_intro {A} (c : M A) (Q : result A -> world -> Prop) w :
  wp c Q w -> Q (fst (c w)) (snd (c w)).
Proof. exact (fun H => H). Qed.

Ltac world_eval t :=
  eval lazy beta iota zeta delta
           [log_event_world
            upd_requests upd_logs upd_serial upd_schedule upd_requests_total
            upd_validation_failures upd_database_operations upd_request_duration
            upd_logger upd_tracer upd_sleep
            prior_auth_requests request_logs requests_serial db_schedule
            requests_total validation_failures database_operations
            request_duration logger open_spans spans clock slept
            next_db_event next_id count_requests db_ok db_event_at after
            db_apply fst snd fetch_value is_raise new_span end_span
            span_name span_parent span_attributes span_error] in t.


Ltac world_simpl :=
  unfold next_db_event, next_id, count_requests, db_ok, db_event_at;
  cbn [log_event_world
       upd_requests upd_logs upd_serial upd_schedule upd_requests_total
       upd_validation_failures upd_database_operations upd_request_duration
       upd_logger upd_tracer upd_sleep
       prior_auth_requests request_logs requests_serial db_schedule
       requests_total validation_failures database_operations
       request_duration logger open_spans spans clock slept
       next_db_event next_id count_requests db_ok db_event_at after
       db_apply fst snd fetch_value is_raise new_span end_span
       span_name span_parent span_attributes span_error].

Ltac world_simpl_in H :=
  unfold next_db_event, next_id, count_requests, db_ok, db_event_at in H;
  cbn [log_event_world
       upd_requests upd_logs upd_serial upd_schedule upd_requests_total
       upd_validation_failures upd_database_operations upd_request_duration
       upd_logger upd_tracer upd_sleep
       prior_auth_requests request_logs requests_serial db_schedule
       requests_total validation_failures database_operations
       request_duration logger open_spans spans clock slept
       next_db_event next_id count_requests db_ok db_event_at after
       db_apply fst snd fetch_value is_raise new_span end_span
       span_name span_parent span_attributes span_error] in H.

(** Bring the world of the goal to a record of fields. *)
Ltac wp_norm :=
  lazymatch goal with
  | |- wp ?c ?Q ?W =>
      let W' := world_eval W in
      lazymatch W' with
      | W => idtac
      | _ => refine (wp_world_eq c Q W W' eq_refl _)
      end
  | |- _ => idtac
  end.

Ltac wp_rule :=
  lazymatch goal with
  | |- wp (bind _ _) _ _ => apply wp_bind
  | |- wp (ret _) _ _ => apply wp_ret
  | |- wp (raise _) _ _ => apply wp_raise
  | |- wp (get _) _ _ => apply wp_get
  | |- wp (modify _) _ _ => apply wp_modify
  | |- wp (try_except _ _) _ _ => apply wp_try_except
  | |- wp (start_as_current_span _ _) _ _ => apply wp_span
  | |- wp (RequestTimer _ _) _ _ => apply wp_timer
  | |- wp (log _ _) _ _ => apply wp_modify
  | |- wp (sleep _) _ _ => apply wp_modify
  | |- wp (set_attribute _ _) _ _ => apply wp_modify
  | |- wp (record_request _ _) _ _ => apply wp_modify
  | |- wp (record_validation_failure _) _ _ => apply wp_modify
  | |- wp (record_database_operation _) _ _ => apply wp_modify
  | |- wp (log_event _ _ _) _ _ => apply wp_log_event
  | |- wp get_next_request_id _ _ => apply wp_get_next_request_id
  | |- wp (execute_query _ _) _ _ => apply wp_execute_query; [reflexivity|]
  | |- wp get_db_connection _ _ => apply wp_get_db_connection
  | |- wp (if ?b then _ else _) _ _ => destruct b eqn:?
  | |- match next_db_event ?w with _ => _ end =>
      let E := fresh "Ev" in
      destruct (next_db_event w) eqn:E; world_simpl_in E
  | |- forall rid, rid = next_id ?w -> _ =>
      let r := fresh "rid" in
      let E := fresh "Hid" in
      intros r E; world_simpl_in E
  end.

Ltac wp_step := wp_rule; wp_norm.

Ltac wp_run := repeat wp_step.

(** A statement about [fst (c w)] and [snd (c w)], turned into a weakest
    precondition over the fields of [w]. *)
Ltac by_wp c w :=
  pattern (fst (c w)), (snd (c w)); apply wp_intro; wp_norm.

(** ** Counters *)

Section Counters.
Context `{Countable K}.
Implicit Types (m : gmap K N) (k : K).

Lemma counter_inc_eq m k : counter_value (inc k m) k = counter_value m k + 1.
Proof. unfold counter_value, inc. by rewrite lookup_insert_eq. Qed.

Lemma counter_inc_ne m k k' : k ≠ k' -> counter_value (inc k m) k' = counter_value m k'.
Proof. intros Hne. unfold counter_value, inc. by rewrite lookup_insert_ne. Qed.

(** A counter never goes down. *)
Lemma counter_inc_le m k k' : counter_value m k' <= counter_value (inc k m) k'.
Proof.
  destruct (decide (k = k')) as [->|Hne].
  - rewrite counter_inc_eq. lia.
  - rewrite counter_inc_ne by done. lia.
Qed.

End Counters.

(** ** Strings *)

Lemma length_list_ascii s : length (list_ascii_of_string s) = String.length s.
Proof. induction s; cbn; congruence. Qed.

(** The test of [validate_npi] refuses exactly the identifiers that are
    not ten digit characters. *)
Lemma npi_refused_spec s : npi_refused s = negb (exactly_10_digits s).
Proof.
  unfold npi_refused, exactly_10_digits, PyStr.len, PyStr.isdigit.
  destruct s as [|c s].
  - reflexivity.
  - set (t := String c s).
    destruct (Nat.eqb_spec (String.length t) 10) as [E|E].
    + rewrite E. cbn. by rewrite orb_false_r.
    + assert ((N.of_nat (String.length t) =? 10) = false) as ->
        by (apply N.eqb_neq; lia).
      cbn. apply orb_true_r.
Qed.

Lemma forallb_false_iff {X} (p : X -> bool) l :
  forallb p l = false <-> exists x, In x l /\ p x = false.
Proof.
  induction l as [|x l IH]; cbn.
  - split; [discriminate | intros (x & [] & _)].
  - rewrite andb_false_iff, IH. split.
    + intros [Hx | (y & Hy & Hp)]; eauto.
    + intros (y & [-> | Hy] & Hp); eauto.
Qed.

(** Comparison of Python strings is the lexicographic order of the code
    points, [String.compare]; it is transitive. *)
Lemma ascii_compare_lt_trans a b c :
  Ascii.compare a b = Lt -> Ascii.compare b c = Lt -> Ascii.compare a c = Lt.
Proof.
  unfold Ascii.compare. rewrite !N.compare_lt_iff. lia.
Qed.

Lemma string_compare_lt_trans s1 : forall s2 s3,
  String.compare s1 s2 = Lt -> String.compare s2 s3 = Lt ->
  String.compare s1 s3 = Lt.
Proof.
  induction s1 as [|a s1 IH]; intros [|b s2] [|c s3]; cbn; try done.
  destruct (Ascii.compare a b) eqn:Eab; try done;
    destruct (Ascii.compare b c) eqn:Ebc; try done; intros H12 H23.
  - apply Ascii.compare_eq_iff in Eab as ->. rewrite Ebc. eauto.
  - apply Ascii.compare_eq_iff in Eab as ->. by rewrite Ebc.
  - apply Ascii.compare_eq_iff in Ebc as <-. by rewrite Eab.
  - by rewrite (ascii_compare_lt_trans _ _ _ Eab Ebc).
Qed.

Lemma string_ltb_trans s1 s2 s3 :
  String.ltb s1 s2 = true -> String.ltb s2 s3 = true -> String.ltb s1 s3 = true.
Proof.
  unfold String.ltb. intros H12 H23.
  destruct (String.compare s1 s2) eqn:E12; try done.
  destruct (String.compare s2 s3) eqn:E23; try done.
  by rewrite (string_compare_lt_trans _ _ _ E12 E23).
Qed.

(** ** Identifiers below one hundred thousand *)

Lemma all_from_spec p fuel : forall n k,
  all_from p fuel n = true -> n <= k < n + N.of_nat fuel -> p k = true.
Proof.
  induction fuel as [|fuel IH]; intros n k Hall Hk.
  - lia.
  - cbn [all_from] in Hall. apply andb_true_iff in Hall as [Hn Hall].
    destruct (N.eq_dec k n) as [->|Hne]; [done|].
    apply (IH (N.succ n)); [done | lia].
Qed.

Lemma all_below p (b : N) k :
  all_from p (N.to_nat b) 0 = true -> k < b -> p k = true.
Proof. intros Hall Hk. apply (all_from_spec _ _ 0 k Hall). lia. Qed.

Lemma request_ids_checked :
  all_from (fun n => matches_PA_5_digits (request_id_of n)
                     && String.ltb (request_id_of n) (request_id_of (N.succ n)))
    (N.to_nat 99999) 0 = true.
Proof. vm_compute. reflexivity. Qed.

Lemma request_id_pattern n :
  n < 100000 -> matches_PA_5_digits (request_id_of n) = true.
Proof.
  intros Hn. destruct (N.eq_dec n 99999) as [->|Hne]; [by vm_compute|].
  pose proof (all_below _ _ n request_ids_checked) as H.
  cbv beta in H. apply andb_true_iff in H as [H _]; [done | lia].
Qed.

Lemma request_id_succ_lt n :
  n + 1 < 100000 -> String.ltb (request_id_of n) (request_id_of (N.succ n)) = true.
Proof.
  intros Hn.
  pose proof (all_below _ _ n request_ids_checked) as H.
  cbv beta in H. apply andb_true_iff in H as [_ H]; [done | lia].
Qed.

(** Zero-padding makes the lexicographic order agree with the numeric
    one, as long as five digits are enough. *)
Lemma request_id_lt n m :
  n < m -> m < 100000 -> String.ltb (request_id_of n) (request_id_of m) = true.
Proof.
  intros Hnm Hm.
  replace m with (n + N.of_nat (S (N.to_nat (m - n - 1)))) in * by lia.
  induction (N.to_nat (m - n - 1)) as [|d IH].
  - replace (n + N.of_nat 1) with (N.succ n) in * by lia.
    apply request_id_succ_lt. lia.
  - eapply string_ltb_trans; [apply IH; lia|].
    replace (n + N.of_nat (S (S d))) with (N.succ (n + N.of_nat (S d))) by lia.
    apply request_id_succ_lt. lia.
Qed.

(** ** The submission, path by path *)

Ltac on_fields w := destruct w as [rq lg ser sch rt vf dbo rd lgr os sp clk sl].

Ltac use_path_facts :=
  repeat (match goal with
          | H : hd DbOk ?x = _ |- context [hd DbOk ?x] => rewrite H; clear H
          | H : String.eqb ?x ?y = _ |- context [String.eqb ?x ?y] =>
              rewrite H; clear H
          | H : npi_refused ?x = _ |- context [npi_refused ?x] =>
              rewrite H; clear H
          end; cbn [store_error]).

Ltac path_norm :=
  unfold result_of, stored_of, serial_of, rows_of, connections_of,
    requests_total_of, validation_failures_of, database_operations_of,
    delay_of, spans_of, path_of, vip_spans, root_attributes, root_span,
    child_span, stored_record, row_received, row_failed, row_passed,
    row_saved, row_pending, audit_row, vip_delay, ValidationError;
  world_simpl; subst; use_path_facts;
  rewrite ?N.add_0_r, <- ?app_assoc, ?app_nil_r; cbn [app].

Lemma submit_spec request w :
  submit_post request w (fst (submit_prior_auth request w))
    (snd (submit_prior_auth request w)).
Proof.
  on_fields w.
  by_wp (submit_prior_auth request)
        (Build_world rq lg ser sch rt vf dbo rd lgr os sp clk sl).
  unfold submit_prior_auth.
  wp_run.
  all: split.
  all: path_norm.
  all: reflexivity.
Qed.

(** ** The other handlers *)

Ltac handler_paths c :=
  lazymatch goal with
  | |- context [c ?w] =>
      on_fields w;
      lazymatch goal with
      | |- context [c ?w'] => by_wp c w'
      end
  end.

(** [health_check] returns on both paths. *)
Lemma health_check_spec w :
  fst (health_check w) =
    Ok (match db_event_at 0 w with
        | ConnectFails _ =>
            {| hc_status := "unhealthy"; hc_database := "disconnected";
               hc_timestamp := clock w |}
        | _ =>
            {| hc_status := "healthy"; hc_database := "connected";
               hc_timestamp := clock w |}
        end)
  /\ prior_auth_requests (snd (health_check w)) = prior_auth_requests w
  /\ requests_total (snd (health_check w)) =
       inc (match db_event_at 0 w with
            | ConnectFails _ => "error"
            | _ => "success"
            end, "/health") (requests_total w)
  /\ validation_failures (snd (health_check w)) = validation_failures w.
Proof.
  handler_paths health_check.
  unfold health_check. wp_run.
  all: world_simpl; use_path_facts; auto.
Qed.

Lemma root_spec w :
  fst (root w) = Ok [("message", "Prior Authorization API"); ("status", "running")]
  /\ prior_auth_requests (snd (root w)) = prior_auth_requests w
  /\ requests_total (snd (root w)) = inc ("success", "/") (requests_total w)
  /\ validation_failures (snd (root w)) = validation_failures w.
Proof.
  handler_paths root.
  unfold root. wp_run. world_simpl. auto.
Qed.

Lemma metrics_spec w :
  fst (metrics w) =
    Ok {| snap_requests_total := requests_total w;
          snap_validation_failures := validation_failures w;
          snap_database_operations := database_operations w;
          snap_request_duration := request_duration w |}
  /\ snd (metrics w) = w.
Proof. split; reflexivity. Qed.

Lemma list_requests_spec w :
  prior_auth_requests (snd (list_requests w)) = prior_auth_requests w
  /\ requests_total (snd (list_requests w)) =
       (if db_ok 0 w then inc ("success", "/prior-auth/requests") (requests_total w)
        else requests_total w)
  /\ validation_failures (snd (list_requests w)) = validation_failures w.
Proof.
  handler_paths list_requests.
  unfold list_requests. wp_run.
  all: world_simpl; use_path_facts; auto.
Qed.

Lemma get_request_logs_spec rid w :
  prior_auth_requests (snd (get_request_logs rid w)) = prior_auth_requests w
  /\ requests_total (snd (get_request_logs rid w)) = requests_total w
  /\ validation_failures (snd (get_request_logs rid w)) = validation_failures w
  /\ (db_event_at 0 w = DbOk ->
      fst (get_request_logs rid w) =
        Ok (rid, sort_by log_timestamp
                   (List.filter (fun r => String.eqb (log_request_id r) rid)
                      (request_logs w)))).
Proof.
  handler_paths (get_request_logs rid).
  unfold get_request_logs. wp_run.
  all: world_simpl; intuition congruence.
Qed.

Lemma trigger_error_spec error w :
  fst (trigger_error error w) = injected error
  /\ slept (snd (trigger_error error w)) = slept w + injected_delay error
  /\ clock (snd (trigger_error error w)) = clock w + injected_delay error
  /\ prior_auth_requests (snd (trigger_error error w)) = prior_auth_requests w
  /\ requests_total (snd (trigger_error error w)) =
       (if String.eqb (error_type error) "database_timeout"
        then inc ("timeout_error", "/prior-auth/test/errors") (requests_total w)
        else if String.eqb (error_type error) "validation_error"
             then inc ("validation_error", "/prior-auth/test/errors") (requests_total w)
             else requests_total w)
  /\ validation_failures (snd (trigger_error error w)) = validation_failures w.
Proof.
  handler_paths (trigger_error error).
  unfold trigger_error. wp_run.
  all: unfold injected, injected_delay; world_simpl; use_path_facts.
  all: rewrite ?N.add_0_r; repeat split; reflexivity.
Qed.

(** ** One operation of a run *)

Lemma store_error_from_store ev e : store_error ev = Some e -> from_store e = true.
Proof. destruct ev; cbn; intros [= <-]; reflexivity. Qed.

(** An exception that goes through a submission unclassified comes from
    the store. *)
Lemma path_of_from_store request w :
  match path_of request w with
  | IdFailed e | RegenFailed e | InsertFailed e => from_store e = true
  | _ => True
  end.
Proof.
  unfold path_of.
  destruct (store_error (db_event_at 0 w)) eqn:E0;
    [by apply store_error_from_store in E0|].
  destruct (npi_refused _); [done|].
  destruct (store_error (db_event_at 2 w)) eqn:E2;
    [by apply store_error_from_store in E2|].
  destruct (store_error (db_event_at 4 w)) eqn:E4;
    [by apply store_error_from_store in E4 | done].
Qed.

Lemma fst_fmap_result {A B} (f : A -> B) p :
  fst (fmap_result f p) =
  match fst p with Ok a => Ok (f a) | Raise e => Raise e end.
Proof. by destruct p as [[a|e] w]. Qed.

Lemma snd_fmap_result {A B} (f : A -> B) p : snd (fmap_result f p) = snd p.
Proof. by destruct p as [[a|e] w]. Qed.

(** Only a successful submission adds a row, the record it returns. *)
Lemma exec_requests op w :
  prior_auth_requests (snd (exec op w)) =
  (prior_auth_requests w ++
   match fst (exec op w) with
   | Ok (RespSubmit resp) => [resp]
   | _ => []
   end)%list.
Proof.
  destruct op as [| | |request| |rid|error]; unfold exec;
    rewrite fst_fmap_result, snd_fmap_result.
  - destruct (root_spec w) as (-> & -> & _). by rewrite app_nil_r.
  - destruct (health_check_spec w) as (-> & -> & _). by rewrite app_nil_r.
  - destruct (metrics_spec w) as (-> & ->). by rewrite app_nil_r.
  - destruct (submit_spec request w) as [-> -> _ _ _ _ _ _ _ _ _ _ _].
    by destruct (path_of request w).
  - destruct (list_requests_spec w) as (-> & _).
    destruct (fst (list_requests w)); by rewrite app_nil_r.
  - destruct (get_request_logs_spec rid w) as (-> & _).
    destruct (fst (get_request_logs rid w)); by rewrite app_nil_r.
  - destruct (trigger_error_spec error w) as (_ & _ & _ & -> & _).
    destruct (fst (trigger_error error w)); by rewrite app_nil_r.
Qed.

(** The identifier of a returned record is the one the count gives. *)
Lemma exec_request_id op w resp :
  fst (exec op w) = Ok (RespSubmit resp) -> request_id resp = next_id w.
Proof.
  destruct op as [| | |request| |rid|error]; unfold exec;
    rewrite fst_fmap_result.
  1-3, 5-7: by destruct (fst _).
  destruct (submit_spec request w) as [-> _ _ _ _ _ _ _ _ _ _ _ _].
  destruct (path_of request w); cbn; try done. by intros [= <-].
Qed.

Lemma submit_endpoint_ne status endpoint :
  endpoint ≠ "/prior-auth/submit" ->
  (status, endpoint) ≠ ("success", "/prior-auth/submit")
  /\ (status, endpoint) ≠ ("validation_error", "/prior-auth/submit").
Proof. intros H. split; congruence. Qed.

(** The two counters of the submissions move with the outcome of the
    operation, and with nothing else. *)
Lemma exec_counters op w :
  success_count (snd (exec op w)) =
    success_count w + (if submit_succeeded op (fst (exec op w)) then 1 else 0)
  /\ npi_failure_count (snd (exec op w)) =
    npi_failure_count w + (if submit_refused op (fst (exec op w)) then 1 else 0).
Proof.
  unfold success_count, npi_failure_count.
  destruct op as [| | |request| |rid|error]; unfold exec;
    rewrite fst_fmap_result, snd_fmap_result.
  - destruct (root_spec w) as (-> & _ & -> & ->). cbn.
    rewrite counter_inc_ne by congruence. lia.
  - destruct (health_check_spec w) as (-> & _ & -> & ->). cbn.
    rewrite counter_inc_ne by (destruct (db_event_at 0 w); congruence). lia.
  - destruct (metrics_spec w) as (-> & ->). cbn. lia.
  - pose proof (path_of_from_store request w) as Hst.
    destruct (submit_spec request w) as [-> _ _ _ _ -> -> _ _ _ _ _ _].
    destruct (path_of request w) as [e| |e|e|]; cbn;
      rewrite ?counter_inc_eq, ?counter_inc_ne by congruence;
      try (destruct e; try discriminate Hst; cbn); lia.
  - destruct (list_requests_spec w) as (_ & -> & ->).
    assert (submit_succeeded OpListRequests
              match fst (list_requests w) with
              | Ok a => Ok (RespListRequests a) | Raise e => Raise e end = false
            /\ submit_refused OpListRequests
              match fst (list_requests w) with
              | Ok a => Ok (RespListRequests a) | Raise e => Raise e end = false)
      as [-> ->] by (by destruct (fst (list_requests w))).
    destruct (db_ok 0 w); rewrite ?counter_inc_ne by congruence; lia.
  - destruct (get_request_logs_spec rid w) as (_ & -> & -> & _).
    destruct (fst (get_request_logs rid w)); cbn; lia.
  - destruct (trigger_error_spec error w) as (_ & _ & _ & _ & -> & ->).
    assert (submit_succeeded (OpTriggerError error)
              match fst (trigger_error error w) with
              | Ok a => Ok (RespTriggerError a) | Raise e => Raise e end = false
            /\ submit_refused (OpTriggerError error)
              match fst (trigger_error error w) with
              | Ok a => Ok (RespTriggerError a) | Raise e => Raise e end = false)
      as [-> ->] by (by destruct (fst (trigger_error error w))).
    destruct (String.eqb _ "database_timeout");
      [|destruct (String.eqb _ "validation_error")];
      rewrite ?counter_inc_ne by congruence; lia.
Qed.

(** No operation lowers a counter of outcomes or of validation failures. *)
Lemma exec_monotone op w :
  (forall k, counter_value (requests_total w) k
             <= counter_value (requests_total (snd (exec op w))) k)
  /\ (forall k, counter_value (validation_failures w) k
                <= counter_value (validation_failures (snd (exec op w))) k).
Proof.
  destruct op as [| | |request| |rid|error]; unfold exec;
    rewrite snd_fmap_result.
  - destruct (root_spec w) as (_ & _ & -> & ->).
    split; intros k; [apply counter_inc_le | lia].
  - destruct (health_check_spec w) as (_ & _ & -> & ->).
    split; intros k; [apply counter_inc_le | lia].
  - destruct (metrics_spec w) as (_ & ->). split; intros k; lia.
  - destruct (submit_spec request w) as [_ _ _ _ _ -> -> _ _ _ _ _ _].
    destruct (path_of request w); cbn; split; intros k;
      try apply counter_inc_le; lia.
  - destruct (list_requests_spec w) as (_ & -> & ->).
    split; intros k; [|lia].
    destruct (db_ok 0 w); [apply counter_inc_le | lia].
  - destruct (get_request_logs_spec rid w) as (_ & -> & -> & _).
    split; intros k; lia.
  - destruct (trigger_error_spec error w) as (_ & _ & _ & _ & -> & ->).
    split; intros k; [|lia].
    destruct (String.eqb _ "database_timeout");
      [|destruct (String.eqb _ "validation_error")];
      try apply counter_inc_le; lia.
Qed.

(** ** Serialized runs *)

Lemma run_cons op ops w :
  run (op :: ops) w =
  (fst (exec op w) :: fst (run ops (snd (exec op w))),
   snd (run ops (snd (exec op w)))).
Proof.
  cbn [run]. destruct (exec op w) as [r w1]. cbn [fst snd].
  by destruct (run ops w1).
Qed.

Lemma tally_cons p op ops r rs :
  tally p (op :: ops) (r :: rs) = (if p op r then 1 else 0) + tally p ops rs.
Proof. unfold tally. cbn. destruct (p op r); cbn [length]; lia. Qed.

Lemma count_requests_exec op w :
  count_requests (snd (exec op w)) =
  count_requests w
  + match fst (exec op w) with Ok (RespSubmit _) => 1 | _ => 0 end.
Proof.
  unfold count_requests. rewrite exec_requests, length_app.
  destruct (fst (exec op w)) as [[]|]; cbn [length]; lia.
Qed.

Lemma count_requests_run ops : forall w,
  count_requests w <= count_requests (snd (run ops w)).
Proof.
  induction ops as [|op ops IH]; intros w; [cbn; lia|].
  rewrite run_cons. cbn [snd].
  specialize (IH (snd (exec op w))).
  rewrite count_requests_exec in IH. lia.
Qed.

(** Every identifier a run returned has a number above the count the run
    started with and at most the count it ended with. *)
Lemma returned_ids_numbered ops : forall w rid,
  In rid (returned_ids (fst (run ops w))) ->
  exists n, rid = request_id_of n
            /\ count_requests w < n <= count_requests (snd (run ops w)).
Proof.
  induction ops as [|op ops IH]; intros w rid; [intros []|].
  rewrite run_cons. cbn [fst snd].
  pose proof (count_requests_exec op w) as Hc.
  pose proof (count_requests_run ops (snd (exec op w))) as Hm.
  pose proof (exec_request_id op w) as Hid.
  assert (forall n, count_requests (snd (exec op w)) < n
                    <= count_requests (snd (run ops (snd (exec op w)))) ->
                    count_requests w < n
                    <= count_requests (snd (run ops (snd (exec op w))))) as Hw
    by (intros n; lia).
  destruct (fst (exec op w)) as [[b|b|b|resp|b|b|b]|e]; cbn [returned_ids].
  4: { intros [<-|Hin].
       - exists (count_requests w + 1). split; [by apply Hid | lia].
       - destruct (IH _ _ Hin) as (n & -> & Hn). eauto. }
  all: intros Hin; destruct (IH _ _ Hin) as (n & -> & Hn); eauto.
Qed.

(** * The claims *)

(** ** Paths under assumptions on the store *)


Lemma npi_accepted_of_wellformed s :
  exactly_10_digits s = true -> npi_refused s = false.
Proof. intros H. by rewrite npi_refused_spec, H. Qed.

Lemma path_refused request w :
  npi_refused (req_provider_npi request) = true ->
  db_event_at 0 w = DbOk -> path_of request w = Refused.
Proof. intros Hn H0. unfold path_of. by rewrite H0, Hn. Qed.

Lemma path_created request w :
  npi_refused (req_provider_npi request) = false ->
  db_event_at 0 w = DbOk -> db_event_at 2 w = DbOk -> db_event_at 4 w = DbOk ->
  path_of request w = Created.
Proof. intros Hn H0 H2 H4. unfold path_of. by rewrite H0, Hn, H2, H4. Qed.


Lemma db_ok_healthy n k w : db_healthy n w -> (k < n)%nat -> db_ok k w = true.
Proof. intros H Hk. unfold db_ok. by rewrite (H k Hk). Qed.

Lemma after_nil k : after k [] = [].
Proof. induction k; cbn; auto. Qed.

(** A store whose schedule has run out serves every statement. *)
Lemma fresh_healthy n : db_healthy n (fresh []).
Proof. intros k _. unfold db_event_at. cbn. by rewrite after_nil. Qed.

(** ** C1 *)








(** ** C2 *)

(** C2, as stated, fails twice.  A refused submission leaves the table
    as it was, so the next call is given the same identifier and the
    trail of that identifier holds both event sets.  And a submission
    succeeds when the store rejects the write of REQUEST_RECEIVED, whose
    failure [log_event] swallows: the trail then has no such event. *)
Lemma audit_trail_mixed_or_incomplete :
  (let p := run [OpSubmit demo_invalid; OpSubmit demo_valid] (fresh []) in
   returned_ids (fst p) = ["PA-00001"]
   /\ audit_trail "PA-00001" (snd p) =
      ["REQUEST_RECEIVED"; "VALIDATION_FAILED";
       "REQUEST_RECEIVED"; "VALIDATION_PASSED"; "SAVED_TO_DATABASE";
       "STATUS_PENDING"])
  /\ (let p := submit_prior_auth demo_valid
                 (fresh [DbOk; QueryFails "deadlock detected"]) in
      is_raise (fst p) = false
      /\ audit_trail "PA-00001" (snd p) =
         ["VALIDATION_PASSED"; "SAVED_TO_DATABASE"; "STATUS_PENDING"]).
Proof. repeat split; vm_compute; reflexivity. Qed.

Lemma map_when {X Y} (f : X -> Y) b x : map f (when b x) = when b (f x).
Proof. by destruct b. Qed.

Lemma Forall_when {X} (P : X -> Prop) b x : P x -> Forall P (when b x).
Proof. destruct b; cbn; auto. Qed.

(** C2, amended: the rows a call of [submit_prior_auth] appends to the
    audit table all carry the identifier assigned to the call, and their
    event types are, in this order, REQUEST_RECEIVED and VALIDATION_FAILED
    for a call that ends in the validation failure, and REQUEST_RECEIVED,
    VALIDATION_PASSED, SAVED_TO_DATABASE and STATUS_PENDING for a call
    that succeeds, each one present exactly when the store took its
    write; the two sets are never mixed, and all events of the set are
    there when the store serves the whole call. *)
Theorem submit_audit_events request w :
  exists rows,
    request_logs (snd (submit_prior_auth request w)) = (request_logs w ++ rows)%list
    /\ Forall (fun row => log_request_id row = next_id w) rows
    /\ match fst (submit_prior_auth request w) with
       | Ok resp =>
           request_id resp = next_id w
           /\ map log_event_type rows =
              (when (db_ok 1 w) "REQUEST_RECEIVED"
               ++ when (db_ok 3 w) "VALIDATION_PASSED"
               ++ when (db_ok 5 w) "SAVED_TO_DATABASE"
               ++ when (db_ok 6 w) "STATUS_PENDING")%list
           /\ (db_healthy 7 w -> map log_event_type rows = success_events)
       | Raise (HTTPException _ _) =>
           map log_event_type rows =
             (when (db_ok 1 w) "REQUEST_RECEIVED"
              ++ when (db_ok 2 w) "VALIDATION_FAILED")%list
           /\ (db_healthy 3 w -> map log_event_type rows = failure_events)
       | Raise _ => True
       end.
Proof.
  pose proof (path_of_from_store request w) as Hst.
  destruct (submit_spec request w) as [-> _ -> _ _ _ _ _ _ _ _ _ _].
  exists (rows_of request w (path_of request w)). split; [done|]. split.
  - destruct (path_of request w); cbn;
      repeat (apply Forall_app; split); try apply Forall_when; by constructor.
  - destruct (path_of request w) as [e| |e|e|]; cbn.
    1,3,4: by destruct e.
    + rewrite !map_app, !map_when. split; [done|]. intros Hh.
      rewrite !(db_ok_healthy 3) by (done || lia). reflexivity.
    + rewrite !map_app, !map_when. split; [done|]. split; [done|]. intros Hh.
      rewrite !(db_ok_healthy 7) by (done || lia). reflexivity.
Qed.

Lemma submit_audit_events_witness :
  db_healthy 7 (fresh [])
  /\ exists rows,
       request_logs (snd (submit_prior_auth demo_valid (fresh []))) = rows
       /\ map log_event_type rows = success_events.
Proof.
  split; [apply fresh_healthy|].
  destruct (submit_audit_events demo_valid (fresh [])) as (rows & Hl & _ & H).
  exists rows. split; [exact Hl|].
  revert H.
  replace (fst (submit_prior_auth demo_valid (fresh [])))
    with (Ok (stored_record demo_valid (fresh [])) : result PriorAuthResponse)
    by (vm_compute; reflexivity).
  intros (_ & _ & H). apply H, fresh_healthy.
Defined.

(** ** C3 *)

(** C3, as stated, fails in two ways.  With 99999 records in the table
    the next identifier has six digits: it does not match [PA-\d{5}] and,
    as a string, it is not above the identifier returned just before.
    And a valid candidate gets no record when the store is unreachable. *)
Lemma sixth_digit_or_outage :
  exactly_10_digits (req_provider_npi demo_valid) = true
  /\ returned_ids
       (fst (run [OpSubmit demo_valid; OpSubmit demo_valid] (crowded 99998 [])))
     = ["PA-99999"; "PA-100000"]
  /\ matches_PA_5_digits "PA-100000" = false
  /\ String.ltb "PA-99999" "PA-100000" = false
  /\ fst (submit_prior_auth demo_valid (fresh [ConnectFails "connection refused"]))
     = Raise (OperationalError "connection refused").
Proof. repeat split; vm_compute; reflexivity. Qed.

(** C3, amended: when the store serves the seven statements of the call
    and holds fewer than 99999 records, a submission with a provider
    identifier of exactly ten digit characters returns a record whose
    [request_id] is "PA-" followed by the count of records plus one,
    zero-padded to five digits; it matches [PA-\d{5}] and is, as a
    string, strictly above the identifier of every record returned
    earlier in the serialized run that led to this world. *)
Theorem submit_assigns_next_id request w :
  exactly_10_digits (req_provider_npi request) = true ->
  db_healthy 7 w ->
  count_requests w + 1 < 100000 ->
  exists resp,
    fst (submit_prior_auth request w) = Ok resp
    /\ request_id resp = "PA-" ++ PyStr.zero_pad 5 (count_requests w + 1)
    /\ matches_PA_5_digits (request_id resp) = true
    /\ forall ops w0 rid,
         snd (run ops w0) = w ->
         In rid (returned_ids (fst (run ops w0))) ->
         String.ltb rid (request_id resp) = true.
Proof.
  intros Hok%npi_accepted_of_wellformed Hh Hc.
  destruct (submit_spec request w) as [Hr _ _ _ _ _ _ _ _ _ _ _ _].
  rewrite (path_created _ _ Hok) in Hr by (apply Hh; lia).
  exists (stored_record request w). split; [exact Hr|]. cbn.
  split; [reflexivity|]. split.
  - apply request_id_pattern, Hc.
  - intros ops w0 rid <- Hin.
    destruct (returned_ids_numbered _ _ _ Hin) as (n & -> & Hn).
    apply request_id_lt; [lia | exact Hc].
Qed.

Lemma submit_assigns_next_id_witness :
  exactly_10_digits (req_provider_npi demo_valid) = true
  /\ db_healthy 7 (fresh [])
  /\ count_requests (fresh []) + 1 < 100000
  /\ exists resp,
       fst (submit_prior_auth demo_valid (fresh [])) = Ok resp
       /\ request_id resp = "PA-" ++ PyStr.zero_pad 5 (count_requests (fresh []) + 1)
       /\ matches_PA_5_digits (request_id resp) = true.
Proof.
  split; [reflexivity|]. split; [apply fresh_healthy|]. split; [reflexivity|].
  destruct (submit_assigns_next_id demo_valid (fresh []) eq_refl
              (fresh_healthy 7) eq_refl) as (resp & H1 & H2 & H3 & _).
  exists resp. auto.
Defined.

(** ** C4 *)

(** C4: [trigger_error] is the three-way case split [injected] on
    [error_type]: [database_timeout] sleeps five seconds and raises the
    503; [validation_error] raises the 400 without sleeping; any other
    string raises nothing, does not sleep and echoes the type. *)
Theorem trigger_error_three_way error w :
  fst (trigger_error error w) = injected error
  /\ slept (snd (trigger_error error w)) = slept w + injected_delay error
  /\ clock (snd (trigger_error error w)) = clock w + injected_delay error.
Proof.
  destruct (trigger_error_spec error w) as (H1 & H2 & H3 & _). auto.
Qed.

(** ** C5 *)

(** C5: after a serialized run, the counter of successful outcomes of
    the submit endpoint has grown by the number of submissions that
    returned, and the counter of validation failures of type
    [invalid_npi_format] by the number of submissions that raised the
    400; and no operation lowers either of them. *)
Theorem run_counts ops w :
  success_count (snd (run ops w))
    = success_count w + tally submit_succeeded ops (fst (run ops w))
  /\ npi_failure_count (snd (run ops w))
    = npi_failure_count w + tally submit_refused ops (fst (run ops w))
  /\ forall op w0,
       success_count w0 <= success_count (snd (exec op w0))
       /\ npi_failure_count w0 <= npi_failure_count (snd (exec op w0)).
Proof.
  split; [|split].
  - revert w. induction ops as [|op ops IH]; intros w.
    + cbn. unfold tally. cbn. lia.
    + rewrite run_cons. cbn [fst snd]. rewrite tally_cons, IH.
      destruct (exec_counters op w) as [-> _]. lia.
  - revert w. induction ops as [|op ops IH]; intros w.
    + cbn. unfold tally. cbn. lia.
    + rewrite run_cons. cbn [fst snd]. rewrite tally_cons, IH.
      destruct (exec_counters op w) as [_ ->]. lia.
  - intros op w0. destruct (exec_monotone op w0) as [Hrt Hvf].
    split; [apply Hrt | apply Hvf].
Qed.

(** ** C6 *)

(** C6: [log_event] never raises.  When the store rejects the write, the
    audit table is left as it was and the failure is recorded by the
    logger at level ERROR; and a submission whose three own statements
    are served returns its record whatever happens to its four audit
    writes. *)
Theorem log_event_never_raises rid ev msg w request w0 :
  fst (log_event rid ev msg w) = Ok tt
  /\ prior_auth_requests (snd (log_event rid ev msg w)) = prior_auth_requests w
  /\ match db_event_at 0 w with
     | DbOk =>
         request_logs (snd (log_event rid ev msg w)) =
           (request_logs w ++ [ {| log_request_id := rid; log_event_type := ev;
                                   log_message := msg;
                                   log_timestamp := clock w |} ])%list
     | ConnectFails m | QueryFails m =>
         request_logs (snd (log_event rid ev msg w)) = request_logs w
         /\ logger (snd (log_event rid ev msg w)) =
            (logger w ++ [(ERROR, ("Failed to log event: " ++ m)%string)])%list
     end
  /\ (exactly_10_digits (req_provider_npi request) = true ->
      db_event_at 0 w0 = DbOk -> db_event_at 2 w0 = DbOk ->
      db_event_at 4 w0 = DbOk ->
      fst (submit_prior_auth request w0) = Ok (stored_record request w0)).
Proof.
  rewrite log_event_eq. cbn [fst snd log_event_world prior_auth_requests
                               request_logs logger].
  split; [done|]. split; [done|]. split.
  - unfold db_ok. destruct (db_event_at 0 w); cbn; by rewrite ?app_nil_r.
  - intros Hok%npi_accepted_of_wellformed H0 H2 H4.
    destruct (submit_spec request w0) as [Hr _ _ _ _ _ _ _ _ _ _ _ _].
    by rewrite (path_created _ _ Hok H0 H2 H4) in Hr.
Qed.

Lemma log_event_never_raises_witness :
  exactly_10_digits (req_provider_npi demo_valid) = true
  /\ fst (log_event "PA-00001" "REQUEST_RECEIVED" "" (fresh [QueryFails "down"]))
     = Ok tt
  /\ fst (submit_prior_auth demo_valid (fresh audit_down))
     = Ok (stored_record demo_valid (fresh audit_down)).
Proof.
  destruct (log_event_never_raises "PA-00001" "REQUEST_RECEIVED" ""
              (fresh [QueryFails "down"]) demo_valid (fresh audit_down))
    as (H1 & _ & _ & H2).
  split; [reflexivity|]. split; [exact H1|].
  apply H2; reflexivity.
Defined.

(** ** C7 *)

(** C7: [health_check] never raises: it returns [healthy] and
    [connected] when the connection is made, [unhealthy] and
    [disconnected] when it is refused, with the time of the call. *)
Theorem health_check_never_raises w :
  fst (health_check w) =
    Ok (match db_event_at 0 w with
        | ConnectFails _ =>
            {| hc_status := "unhealthy"; hc_database := "disconnected";
               hc_timestamp := clock w |}
        | _ =>
            {| hc_status := "healthy"; hc_database := "connected";
               hc_timestamp := clock w |}
        end).
Proof. apply health_check_spec. Qed.

(** ** C8 *)

Lemma get_next_request_id_ok w :
  db_event_at 0 w = DbOk -> fst (get_next_request_id w) = Ok (next_id w).
Proof.
  intros H0. on_fields w. by_wp get_next_request_id
    (Build_world rq lg ser sch rt vf dbo rd lgr os sp clk sl).
  wp_run; world_simpl; unfold db_event_at in H0; cbn in H0; congruence.
Qed.

(** A submission that returns has gone through the three statements. *)
Lemma submit_ok_inv request w resp :
  fst (submit_prior_auth request w) = Ok resp ->
  path_of request w = Created /\ resp = stored_record request w
  /\ db_event_at 0 w = DbOk.
Proof.
  destruct (submit_spec request w) as [-> _ _ _ _ _ _ _ _ _ _ _ _].
  unfold path_of.
  destruct (db_event_at 0 w); cbn; try done.
  destruct (npi_refused _); cbn; try done.
  destruct (db_event_at 2 w); cbn; try done.
  destruct (db_event_at 4 w); cbn; try done.
  by intros [= <-].
Qed.

(** C8: the identifier is computed twice, from the same table, as
    [log_event] inserts no request; so the record returned, the row
    persisted, the [request.id] attribute of the root span and the
    REQUEST_RECEIVED row (when the store took it) carry one identifier. *)
Theorem request_id_computed_twice_agrees request w resp :
  fst (submit_prior_auth request w) = Ok resp ->
  fst (get_next_request_id w) = Ok (request_id resp)
  /\ (forall w2, prior_auth_requests w2 = prior_auth_requests w ->
                 db_event_at 0 w2 = DbOk ->
                 fst (get_next_request_id w2) = Ok (request_id resp))
  /\ (forall rid ev msg w1,
        prior_auth_requests (snd (log_event rid ev msg w1)) = prior_auth_requests w1)
  /\ last (prior_auth_requests (snd (submit_prior_auth request w))) = Some resp
  /\ (exists children,
        spans (snd (submit_prior_auth request w)) =
        (spans w ++ children
         ++ [root_span w
               [("request.id", AttrStr (request_id resp));
                ("request.member_id", AttrStr (req_member_id request));
                ("request.provider_npi", AttrStr (req_provider_npi request))]
               false])%list)
  /\ (db_ok 1 w = true ->
      exists msg t,
        In {| log_request_id := request_id resp;
              log_event_type := "REQUEST_RECEIVED";
              log_message := msg; log_timestamp := t |}
           (request_logs (snd (submit_prior_auth request w)))).
Proof.
  intros Hres. destruct (submit_ok_inv _ _ _ Hres) as (Hp & -> & H0).
  destruct (submit_spec request w) as [_ Hq Hl _ _ _ _ _ _ _ Hs _ _].
  rewrite Hp in *. cbn [stored_of rows_of spans_of] in *.
  split; [by apply get_next_request_id_ok|]. split.
  { intros w2 Hsame H2. rewrite (get_next_request_id_ok _ H2).
    unfold stored_record, next_id, count_requests. cbn. by rewrite Hsame. }
  split; [intros; by rewrite log_event_eq|].
  split; [rewrite Hq; apply last_snoc|]. split.
  - exists (vip_spans request
            ++ [child_span "validate_npi" [] false;
                child_span "generate_request_id" [] false;
                child_span "database_insert" [] false])%list.
    rewrite Hs. unfold root_attributes. cbn [request_id stored_record].
    rewrite <- !app_assoc. reflexivity.
  - intros H1. rewrite Hl, H1. do 2 eexists.
    apply in_or_app. right. left. reflexivity.
Qed.

Lemma request_id_computed_twice_agrees_witness :
  fst (submit_prior_auth demo_valid (fresh []))
    = Ok (stored_record demo_valid (fresh []))
  /\ fst (get_next_request_id (fresh [])) = Ok "PA-00001"
  /\ last (prior_auth_requests (snd (submit_prior_auth demo_valid (fresh []))))
     = Some (stored_record demo_valid (fresh [])).
Proof.
  assert (fst (submit_prior_auth demo_valid (fresh []))
          = Ok (stored_record demo_valid (fresh []))) as H
    by (vm_compute; reflexivity).
  destruct (request_id_computed_twice_agrees demo_valid (fresh []) _ H)
    as (H1 & _ & _ & H2 & _).
  split; [exact H|]. split; [exact H1 | exact H2].
Defined.

(** ** C9 *)

Lemma schema_admits_len request :
  schema_admits request = true ->
  String.length (req_provider_npi request) = 10%nat.
Proof.
  unfold schema_admits, Field, PyStr.len.
  rewrite !andb_true_iff, !N.leb_le. lia.
Qed.

Lemma isdigit_of_length s :
  String.length s = 10%nat ->
  PyStr.isdigit s = forallb PyStr.isdigit_char (list_ascii_of_string s).
Proof. by destruct s. Qed.

(** C9: for a request the schema layer admits, the length test of
    [validate_npi] is always passed, and the request is refused exactly
    when its provider identifier holds a character that is not a digit. *)
Theorem length_test_never_fires request :
  schema_admits request = true ->
  (PyStr.len (req_provider_npi request) =? 10) = true
  /\ (npi_refused (req_provider_npi request) = true <->
      exists c, In c (list_ascii_of_string (req_provider_npi request))
                /\ PyStr.isdigit_char c = false)
  /\ forall w, db_event_at 0 w = DbOk ->
       (fst (submit_prior_auth request w) = Raise ValidationError <->
        exists c, In c (list_ascii_of_string (req_provider_npi request))
                  /\ PyStr.isdigit_char c = false).
Proof.
  intros Hlen%schema_admits_len.
  assert ((PyStr.len (req_provider_npi request) =? 10) = true) as Hten
    by (unfold PyStr.len; rewrite Hlen; reflexivity).
  assert (npi_refused (req_provider_npi request) = true <->
          exists c, In c (list_ascii_of_string (req_provider_npi request))
                    /\ PyStr.isdigit_char c = false) as Hiff.
  { unfold npi_refused. rewrite Hten, orb_false_r, isdigit_of_length by done.
    rewrite negb_true_iff. apply forallb_false_iff. }
  split; [done|]. split; [done|]. intros w H0. rewrite <- Hiff.
  pose proof (path_of_from_store request w) as Hst.
  destruct (submit_spec request w) as [-> _ _ _ _ _ _ _ _ _ _ _ _].
  revert Hst. unfold path_of. rewrite H0. cbn.
  destruct (npi_refused _); [done|].
  destruct (store_error (db_event_at 2 w)) as [e|]; cbn.
  { intros He. split; [|done]. intros [= Heq]. by rewrite Heq in He. }
  destruct (store_error (db_event_at 4 w)) as [e|]; cbn.
  { intros He. split; [|done]. intros [= Heq]. by rewrite Heq in He. }
  done.
Qed.

Lemma length_test_never_fires_witness :
  schema_admits demo_invalid = true
  /\ (PyStr.len (req_provider_npi demo_invalid) =? 10) = true
  /\ npi_refused (req_provider_npi demo_invalid) = true.
Proof.
  destruct (length_test_never_fires demo_invalid eq_refl) as (H1 & H2 & _).
  split; [reflexivity|]. split; [exact H1|].
  apply H2. exists "A"%char. split; [left; reflexivity | reflexivity].
Defined.

(** ** C10 *)

Lemma bump_served m : bump true m = inc "insert_log" m.
Proof. reflexivity. Qed.

(** C10: an audit write the store takes counts as one database
    operation of type [insert_log]; so a submission for which the store
    serves all seven statements counts four [insert_log], one
    [insert_request], and nothing under any other type. *)
Theorem audit_writes_count_as_operations rid ev msg w request w0 :
  (db_event_at 0 w = DbOk ->
   db_operation_count "insert_log" (snd (log_event rid ev msg w))
   = db_operation_count "insert_log" w + 1)
  /\ (exactly_10_digits (req_provider_npi request) = true ->
      db_healthy 7 w0 ->
      db_operation_count "insert_log" (snd (submit_prior_auth request w0))
      = db_operation_count "insert_log" w0 + 4
      /\ db_operation_count "insert_request" (snd (submit_prior_auth request w0))
         = db_operation_count "insert_request" w0 + 1
      /\ forall k, k <> "insert_log" -> k <> "insert_request" ->
           db_operation_count k (snd (submit_prior_auth request w0))
           = db_operation_count k w0).
Proof.
  unfold db_operation_count. split.
  - intros H0. rewrite log_event_eq. cbn [snd log_event_world database_operations].
    unfold db_ok. rewrite H0, bump_served, counter_inc_eq. reflexivity.
  - intros Hok%npi_accepted_of_wellformed Hh.
    destruct (submit_spec request w0) as [_ _ _ _ _ _ _ -> _ _ _ _ _].
    rewrite (path_created _ _ Hok) by (apply Hh; lia).
    cbn [database_operations_of].
    rewrite !(db_ok_healthy 7) by (done || lia). rewrite !bump_served.
    split; [|split; [|intros k Hk1 Hk2]];
      repeat first [rewrite counter_inc_eq
                   | rewrite counter_inc_ne by congruence]; lia.
Qed.

Lemma audit_writes_count_as_operations_witness :
  exactly_10_digits (req_provider_npi demo_valid) = true
  /\ db_healthy 7 (fresh [])
  /\ db_operation_count "insert_log" (snd (submit_prior_auth demo_valid (fresh [])))
     = db_operation_count "insert_log" (fresh []) + 4
  /\ db_operation_count "insert_log"
       (snd (log_event "PA-00001" "REQUEST_RECEIVED" "" (fresh [])))
     = db_operation_count "insert_log" (fresh []) + 1.
Proof.
  destruct (audit_writes_count_as_operations "PA-00001" "REQUEST_RECEIVED" ""
              (fresh []) demo_valid (fresh [])) as [H1 H2].
  destruct (H2 eq_refl (fresh_healthy 7)) as (H3 & _).
  split; [reflexivity|]. split; [apply fresh_healthy|].
  split; [exact H3 | apply H1; reflexivity].
Defined.

(** * Further properties of the handlers *)

(** ** Rows in order *)

Section SortBy.
Context {X : Type} (key : X -> N).

Lemma insert_by_Permutation x l : insert_by key x l ≡ₚ x :: l.
Proof.
  induction l as [|y l IH]; [done|]. cbn.
  destruct (key x <=? key y); [done|]. rewrite IH. apply perm_swap.
Qed.

(** Ordering the rows neither drops nor adds a row. *)
Lemma sort_by_Permutation l : sort_by key l ≡ₚ l.
Proof.
  induction l as [|x l IH]; [done|]. cbn.
  by rewrite insert_by_Permutation, IH.
Qed.

Lemma sort_by_In x l : In x (sort_by key l) <-> In x l.
Proof.
  split; apply Permutation_in; [|symmetry]; apply sort_by_Permutation.
Qed.

Lemma insert_by_sorted x l :
  StronglySorted (fun a b => key a <= key b) l ->
  StronglySorted (fun a b => key a <= key b) (insert_by key x l).
Proof.
  induction 1 as [|y l Hs IH Hy]; cbn; [repeat constructor|].
  destruct (N.leb_spec (key x) (key y)) as [Hle|Hlt].
  - constructor; [by constructor|]. constructor; [done|].
    eapply Forall_impl; [exact Hy|]. cbn. intros z Hz. lia.
  - constructor; [done|].
    rewrite insert_by_Permutation. constructor; [lia | done].
Qed.

Lemma sort_by_sorted l :
  StronglySorted (fun a b => key a <= key b) (sort_by key l).
Proof.
  induction l as [|x l IH]; [constructor|]. by apply insert_by_sorted.
Qed.

Lemma StronglySorted_snoc (R : X -> X -> Prop) l x :
  StronglySorted R l -> Forall (fun y => R y x) l -> StronglySorted R (l ++ [x]).
Proof.
  induction 1 as [|y l Hs IH Hy]; intros Hx; [repeat constructor|].
  inversion_clear Hx as [|? ? Hyx Hlx]. cbn. constructor; [by apply IH|].
  apply Forall_app. split; [done | by constructor].
Qed.

Lemma StronglySorted_rev (R : X -> X -> Prop) l :
  StronglySorted R l -> StronglySorted (fun a b => R b a) (rev l).
Proof.
  induction 1 as [|y l Hs IH Hy]; [constructor|]. cbn.
  apply StronglySorted_snoc; [done|]. by apply Forall_rev.
Qed.

Lemma StronglySorted_app_inv (R : X -> X -> Prop) l1 l2 :
  StronglySorted R (l1 ++ l2) ->
  StronglySorted R l1
  /\ forall a b, In a l1 -> In b l2 -> R a b.
Proof.
  induction l1 as [|x l1 IH]; cbn; [split; [constructor | intros ? ? []]|].
  intros Hs. inversion_clear Hs as [|? ? Hs' Hx].
  destruct (IH Hs') as [H1 H2].
  apply Forall_app in Hx as [Hx1 Hx2]. split; [by constructor|].
  intros a b [<-|Ha] Hb; [|by apply H2].
  rewrite List.Forall_forall in Hx2. by apply Hx2.
Qed.

(** The rows in descending order. *)
Lemma rev_sort_by_sorted l :
  StronglySorted (fun a b => key b <= key a) (rev (sort_by key l)).
Proof. apply StronglySorted_rev, sort_by_sorted. Qed.

(** A row above all others comes first in the descending order. *)
Lemma rev_sort_by_head l x :
  Forall (fun y => key y < key x) l ->
  exists rest, rev (sort_by key (l ++ [x])) = x :: rest.
Proof.
  intros Hlt.
  pose proof (rev_sort_by_sorted (l ++ [x])) as Hs.
  assert (rev (sort_by key (l ++ [x])) ≡ₚ x :: l) as Hp.
  { rewrite <- Permutation_rev, sort_by_Permutation.
    by rewrite Permutation_app_comm. }
  destruct (rev (sort_by key (l ++ [x]))) as [|y rest] eqn:E.
  { by apply Permutation_nil_l in Hp. }
  exists rest. f_equal.
  assert (In y (x :: l)) as [<-|Hy]
    by (apply (Permutation_in _ Hp); by left); [done|].
  assert (In x (y :: rest)) as [->|Hx]
    by (apply (Permutation_in _ (Permutation_sym Hp)); by left); [done|].
  inversion_clear Hs as [|? ? _ Hall].
  rewrite List.Forall_forall in Hall, Hlt.
  specialize (Hall _ Hx). specialize (Hlt _ Hy). cbn in Hall. lia.
Qed.

End SortBy.

(** ** What each handler leaves in the world *)

Lemma health_check_effects w :
  request_logs (snd (health_check w)) = request_logs w
  /\ database_operations (snd (health_check w)) = database_operations w
  /\ request_duration (snd (health_check w)) = inc "/health" (request_duration w)
  /\ db_schedule (snd (health_check w)) = tail (db_schedule w).
Proof.
  handler_paths health_check.
  unfold health_check. wp_run.
  all: world_simpl; auto.
Qed.

Lemma root_effects w :
  request_logs (snd (root w)) = request_logs w
  /\ database_operations (snd (root w)) = database_operations w
  /\ request_duration (snd (root w)) = request_duration w
  /\ db_schedule (snd (root w)) = db_schedule w.
Proof.
  handler_paths root.
  unfold root. wp_run. world_simpl. auto.
Qed.

Lemma list_requests_effects w :
  fst (list_requests w) =
    match store_error (db_event_at 0 w) with
    | None => Ok (firstn 100 (rev (sort_by created_at (prior_auth_requests w))))
    | Some e => Raise e
    end
  /\ request_logs (snd (list_requests w)) = request_logs w
  /\ database_operations (snd (list_requests w)) =
       (if db_ok 0 w then inc "select_requests" (database_operations w)
        else database_operations w)
  /\ request_duration (snd (list_requests w)) =
       inc "/prior-auth/requests" (request_duration w)
  /\ db_schedule (snd (list_requests w)) = tail (db_schedule w).
Proof.
  handler_paths list_requests.
  unfold list_requests. wp_run.
  all: world_simpl; use_path_facts; auto.
Qed.

Lemma get_request_logs_effects rid w :
  fst (get_request_logs rid w) =
    match store_error (db_event_at 0 w) with
    | None => Ok (rid, sort_by log_timestamp (rows_with rid (request_logs w)))
    | Some e => Raise e
    end
  /\ request_logs (snd (get_request_logs rid w)) = request_logs w
  /\ database_operations (snd (get_request_logs rid w)) =
       (if db_ok 0 w then inc "select_logs" (database_operations w)
        else database_operations w)
  /\ request_duration (snd (get_request_logs rid w)) = request_duration w
  /\ db_schedule (snd (get_request_logs rid w)) = tail (db_schedule w).
Proof.
  handler_paths (get_request_logs rid).
  unfold get_request_logs. wp_run.
  all: unfold rows_with; world_simpl; use_path_facts; auto.
Qed.

Lemma trigger_error_effects error w :
  request_logs (snd (trigger_error error w)) =
    (request_logs w ++ trigger_rows error w)%list
  /\ request_duration (snd (trigger_error error w)) = request_duration w.
Proof.
  handler_paths (trigger_error error).
  unfold trigger_error. wp_run.
  all: unfold trigger_rows, error_row, error_id; world_simpl; use_path_facts.
  all: rewrite ?N.add_0_r, <- ?app_assoc, ?app_nil_r; split; reflexivity.
Qed.

(** The store as the next handler finds it after a submission. *)
Lemma db_event_after k n l : hd DbOk (after k (after n l)) = hd DbOk (after (n + k) l).
Proof.
  revert l. induction n as [|n IH]; intros l; [done|]. cbn. apply IH.
Qed.

Lemma db_event_at_after_submit request w k :
  db_event_at k (snd (submit_prior_auth request w)) =
  db_event_at (connections_of (path_of request w) + k) w.
Proof.
  destruct (submit_spec request w) as [_ _ _ _ Hs _ _ _ _ _ _ _ _].
  unfold db_event_at. rewrite Hs. apply db_event_after.
Qed.

Lemma db_ok_store_error k w : db_ok k w = true -> store_error (db_event_at k w) = None.
Proof. unfold db_ok. by destruct (db_event_at k w). Qed.

(** ** The trace of a submission *)

Lemma vip_spans_children request :
  Forall (fun s => span_parent s = Some "submit_prior_auth") (vip_spans request).
Proof. unfold vip_spans. destruct (String.eqb _ _); repeat constructor. Qed.

Lemma vip_spans_ended request :
  Forall (fun s => span_error s = false) (vip_spans request).
Proof. unfold vip_spans. destruct (String.eqb _ _); repeat constructor. Qed.

(** X1: Every span a submission starts is ended, whether the handler returns
    or raises: the stack of the spans being recorded is left as it was
    found.  The spans the call records are its children, in the order
    they end, and last the root span [submit_prior_auth], marked as
    failed exactly when the call raises.  When the call returns, the
    children are, after the span of the delay of member M99999 if there
    is one, [validate_npi], [generate_request_id] and [database_insert],
    none of them failed. *)
Theorem submit_closes_every_span request w :
  open_spans (snd (submit_prior_auth request w)) = open_spans w
  /\ exists children root,
       spans (snd (submit_prior_auth request w))
         = (spans w ++ children ++ [root])%list
       /\ span_name root = "submit_prior_auth"
       /\ span_error root = is_raise (fst (submit_prior_auth request w))
       /\ Forall (fun s => span_parent s = Some "submit_prior_auth") children
       /\ match fst (submit_prior_auth request w) with
          | Ok _ =>
              map span_name children =
                (map span_name (vip_spans request)
                 ++ ["validate_npi"; "generate_request_id"; "database_insert"])%list
              /\ Forall (fun s => span_error s = false) children
          | Raise _ => True
          end.
Proof.
  destruct (submit_spec request w) as [-> _ _ _ _ _ _ _ _ Ho -> _ _].
  split; [exact Ho|].
  pose proof (vip_spans_children request) as Hv.
  pose proof (vip_spans_ended request) as Hv'.
  destruct (path_of request w) as [e| |e|e|]; cbn [spans_of result_of is_raise].
  - exists [], (root_span w [] true). repeat split; constructor.
  - exists (vip_spans request ++ [child_span "validate_npi" [] true])%list,
      (root_span w (root_attributes request w) true).
    rewrite <- !app_assoc. repeat split.
    apply Forall_app; split; [done | repeat constructor].
  - exists (vip_spans request
            ++ [child_span "validate_npi" [] false;
                child_span "generate_request_id" [] true])%list,
      (root_span w (root_attributes request w) true).
    rewrite <- !app_assoc. repeat split.
    apply Forall_app; split; [done | repeat constructor].
  - exists (vip_spans request
            ++ [child_span "validate_npi" [] false;
                child_span "generate_request_id" [] false;
                child_span "database_insert" [] true])%list,
      (root_span w (root_attributes request w) true).
    rewrite <- !app_assoc. repeat split.
    apply Forall_app; split; [done | repeat constructor].
  - exists (vip_spans request
            ++ [child_span "validate_npi" [] false;
                child_span "generate_request_id" [] false;
                child_span "database_insert" [] false])%list,
      (root_span w (root_attributes request w) false).
    rewrite <- !app_assoc. split; [done|]. split; [done|]. split; [done|].
    split; [apply Forall_app; split; [done | repeat constructor]|].
    split; [by rewrite map_app|].
    apply Forall_app; split; [done | repeat constructor].
Qed.

(** ** The delay of member M99999 *)

(** X2: A submission sleeps two seconds exactly when it is for member M99999
    and its first count has been served: the delay comes before the
    validation, so a submission of that member that is then refused is
    delayed like one that is stored, and no other submission sleeps. *)
Theorem vip_delay_precedes_validation request w :
  slept (snd (submit_prior_auth request w)) =
    slept w + (if db_ok 0 w && String.eqb (req_member_id request) "M99999"
               then 2 else 0)
  /\ clock (snd (submit_prior_auth request w)) =
    clock w + (if db_ok 0 w && String.eqb (req_member_id request) "M99999"
               then 2 else 0).
Proof.
  destruct (submit_spec request w) as [_ _ _ _ _ _ _ _ _ _ _ -> ->].
  unfold path_of, db_ok, vip_delay.
  destruct (db_event_at 0 w); cbn; [|done|done].
  destruct (npi_refused _); [done|].
  destruct (store_error (db_event_at 2 w)); [done|].
  by destruct (store_error (db_event_at 4 w)).
Qed.

(** ** The outcome metric of a submission *)

(** X3: A submission counts one request outcome when it returns ([success])
    and one when it is refused ([validation_error], with one validation
    failure [invalid_npi_format]); when an error of the store goes
    through it, it counts no outcome at all. *)
Theorem submit_outcome_metric request w :
  requests_total (snd (submit_prior_auth request w)) =
    match fst (submit_prior_auth request w) with
    | Ok _ => inc ("success", "/prior-auth/submit") (requests_total w)
    | Raise (HTTPException _ _) =>
        inc ("validation_error", "/prior-auth/submit") (requests_total w)
    | Raise _ => requests_total w
    end
  /\ validation_failures (snd (submit_prior_auth request w)) =
    match fst (submit_prior_auth request w) with
    | Raise (HTTPException _ _) =>
        inc "invalid_npi_format" (validation_failures w)
    | _ => validation_failures w
    end.
Proof.
  pose proof (path_of_from_store request w) as Hst.
  destruct (submit_spec request w) as [-> _ _ _ _ -> -> _ _ _ _ _ _].
  destruct (path_of request w) as [e| |e|e|]; cbn; try done.
  all: by destruct e.
Qed.

(** ** The record a submission returns *)

(** X4: The record a submission returns repeats the four fields of the
    candidate with the status [pending], and it is in the table when the
    handler returns. *)
Theorem submit_returns_the_candidate request w resp :
  fst (submit_prior_auth request w) = Ok resp ->
  member_id resp = req_member_id request
  /\ provider_npi resp = req_provider_npi request
  /\ diagnosis_code resp = req_diagnosis_code request
  /\ requested_service resp = req_requested_service request
  /\ status resp = "pending"
  /\ In resp (prior_auth_requests (snd (submit_prior_auth request w))).
Proof.
  intros Hres. destruct (submit_ok_inv _ _ _ Hres) as (Hp & -> & H0).
  destruct (submit_spec request w) as [_ Hq _ _ _ _ _ _ _ _ _ _ _].
  rewrite Hp in Hq. cbn [stored_of] in Hq.
  repeat (split; [reflexivity|]).
  rewrite Hq. apply in_or_app. right. by left.
Qed.

Lemma submit_returns_the_candidate_witness :
  fst (submit_prior_auth demo_valid (fresh []))
    = Ok (stored_record demo_valid (fresh []))
  /\ member_id (stored_record demo_valid (fresh [])) = "M10001"
  /\ status (stored_record demo_valid (fresh [])) = "pending".
Proof.
  assert (fst (submit_prior_auth demo_valid (fresh []))
          = Ok (stored_record demo_valid (fresh []))) as H
    by (vm_compute; reflexivity).
  destruct (submit_returns_the_candidate demo_valid (fresh []) _ H)
    as (H1 & _ & _ & _ & H2 & _).
  split; [exact H|]. split; [exact H1 | exact H2].
Defined.

(** ** The listing *)

Lemma In_firstn {X} (x : X) n : forall l, In x (firstn n l) -> In x l.
Proof.
  induction n as [|n IH]; intros [|y l]; cbn; try done.
  intros [->|Hin]; auto.
Qed.

(** X5: [list_requests] returns at most one hundred records of the
    table, in descending order of [created_at], and no record it leaves
    out is newer than one it returns; when the table holds no more than
    one hundred records it returns them all; and it leaves the table as
    it is. *)
Theorem list_requests_bounded w rs :
  fst (list_requests w) = Ok rs ->
  (length rs <= 100)%nat
  /\ StronglySorted (fun a b => created_at b <= created_at a) rs
  /\ (forall r, In r rs -> In r (prior_auth_requests w))
  /\ (exists rest,
        prior_auth_requests w ≡ₚ rs ++ rest
        /\ forall r r', In r rs -> In r' rest -> created_at r' <= created_at r)
  /\ ((length (prior_auth_requests w) <= 100)%nat ->
      rs ≡ₚ prior_auth_requests w)
  /\ prior_auth_requests (snd (list_requests w)) = prior_auth_requests w.
Proof.
  destruct (list_requests_effects w) as (-> & _).
  destruct (list_requests_spec w) as (Hq & _).
  destruct (store_error (db_event_at 0 w)); [done|]. intros [= <-].
  set (l := rev (sort_by created_at (prior_auth_requests w))).
  assert (l ≡ₚ prior_auth_requests w) as Hp
    by (unfold l; by rewrite <- Permutation_rev, sort_by_Permutation).
  pose proof (rev_sort_by_sorted created_at (prior_auth_requests w)) as Hs.
  fold l in Hs. rewrite <- (firstn_skipn 100 l) in Hs.
  apply StronglySorted_app_inv in Hs as [Hs Htop].
  split; [rewrite length_firstn; lia|]. split; [done|]. split.
  { intros r Hin%In_firstn. by apply (Permutation_in _ Hp). }
  split.
  { exists (skipn 100 l). split; [by rewrite firstn_skipn|].
    intros r r' Hr Hr'. by apply Htop. }
  split; [|done]. intros Hle.
  rewrite firstn_all2; [done|]. by rewrite (Permutation_length Hp).
Qed.

Lemma list_requests_bounded_witness :
  exists r1 r2,
    fst (list_requests
           (snd (run [OpSubmit demo_vip; OpSubmit demo_vip] (fresh []))))
      = Ok [r2; r1]
    /\ request_id r1 = "PA-00001" /\ request_id r2 = "PA-00002"
    /\ StronglySorted (fun a b => created_at b <= created_at a) [r2; r1].
Proof.
  eexists _, _.
  assert (fst (list_requests
                 (snd (run [OpSubmit demo_vip; OpSubmit demo_vip] (fresh []))))
          = Ok [ {| id := 2; request_id := "PA-00002"; member_id := "M99999";
                    provider_npi := "1234567890"; diagnosis_code := "E11.9";
                    requested_service := "MRI_BRAIN"; status := "pending";
                    created_at := 1700000004 |};
                 {| id := 1; request_id := "PA-00001"; member_id := "M99999";
                    provider_npi := "1234567890"; diagnosis_code := "E11.9";
                    requested_service := "MRI_BRAIN"; status := "pending";
                    created_at := 1700000002 |} ]) as H
    by (vm_compute; reflexivity).
  split; [exact H|]. split; [reflexivity|]. split; [reflexivity|].
  exact (proj1 (proj2 (list_requests_bounded _ _ H))).
Defined.

(** X6: The record a submission has just created is the first of the
    listing that follows it, when its [created_at] is above the one of
    every record the table held before. *)
Theorem submitted_record_is_listed_first request w resp :
  fst (submit_prior_auth request w) = Ok resp ->
  db_event_at 7 w = DbOk ->
  Forall (fun r => created_at r < created_at resp) (prior_auth_requests w) ->
  exists rest,
    fst (list_requests (snd (submit_prior_auth request w))) = Ok (resp :: rest).
Proof.
  intros Hres H7 Hnew. destruct (submit_ok_inv _ _ _ Hres) as (Hp & -> & H0).
  destruct (list_requests_effects (snd (submit_prior_auth request w))) as (-> & _).
  rewrite db_event_at_after_submit, Hp. cbn [connections_of Nat.add].
  rewrite H7. cbn [store_error].
  destruct (submit_spec request w) as [_ -> _ _ _ _ _ _ _ _ _ _ _].
  rewrite Hp. cbn [stored_of].
  destruct (rev_sort_by_head created_at _ _ Hnew) as (rest & ->).
  cbn [firstn]. eauto.
Qed.

Lemma submitted_record_is_listed_first_witness :
  exists r2 rest,
    fst (submit_prior_auth demo_vip (snd (submit_prior_auth demo_vip (fresh []))))
      = Ok r2
    /\ request_id r2 = "PA-00002"
    /\ fst (list_requests
              (snd (submit_prior_auth demo_vip
                      (snd (submit_prior_auth demo_vip (fresh []))))))
       = Ok (r2 :: rest).
Proof.
  set (w1 := snd (submit_prior_auth demo_vip (fresh []))).
  set (r1 := {| id := 1; request_id := "PA-00001"; member_id := "M99999";
                provider_npi := "1234567890"; diagnosis_code := "E11.9";
                requested_service := "MRI_BRAIN"; status := "pending";
                created_at := 1700000002 |}).
  set (r2 := {| id := 2; request_id := "PA-00002"; member_id := "M99999";
                provider_npi := "1234567890"; diagnosis_code := "E11.9";
                requested_service := "MRI_BRAIN"; status := "pending";
                created_at := 1700000004 |}).
  assert (fst (submit_prior_auth demo_vip w1) = Ok r2) as H
    by (vm_compute; reflexivity).
  assert (db_event_at 7 w1 = DbOk) as H7 by (vm_compute; reflexivity).
  assert (prior_auth_requests w1 = [r1]) as E by (vm_compute; reflexivity).
  assert (Forall (fun r => created_at r < created_at r2) (prior_auth_requests w1))
    as Hnew by (rewrite E; repeat constructor).
  destruct (submitted_record_is_listed_first demo_vip w1 r2 H H7 Hnew)
    as (rest & Hl).
  exists r2, rest. split; [exact H|]. split; [reflexivity | exact Hl].
Defined.

(** ** The histogram of durations *)

(** X7: Of the seven operations, only the health check and the listing are
    timed: each of their calls adds one observation under its endpoint,
    whether it returns or raises; no other operation adds one. *)
Theorem only_health_and_listing_are_timed op w :
  request_duration (snd (exec op w)) =
  match op with
  | OpHealth => inc "/health" (request_duration w)
  | OpListRequests => inc "/prior-auth/requests" (request_duration w)
  | _ => request_duration w
  end.
Proof.
  destruct op as [| | |request| |rid|error]; unfold exec;
    rewrite snd_fmap_result.
  - by destruct (root_effects w) as (_ & _ & -> & _).
  - by destruct (health_check_effects w) as (_ & _ & -> & _).
  - by destruct (metrics_spec w) as (_ & ->).
  - by destruct (submit_spec request w) as [_ _ _ _ _ _ _ _ -> _ _ _ _].
  - by destruct (list_requests_effects w) as (_ & _ & _ & -> & _).
  - by destruct (get_request_logs_effects rid w) as (_ & _ & _ & -> & _).
  - by destruct (trigger_error_effects error w) as (_ & ->).
Qed.

(** ** The audit trail of an identifier *)

Lemma rows_with_In rid l r :
  In r (rows_with rid l) <-> In r l /\ log_request_id r = rid.
Proof.
  unfold rows_with. rewrite filter_In. by rewrite String.eqb_eq.
Qed.

Lemma rows_with_none rid l :
  (forall r, In r l -> log_request_id r <> rid) -> rows_with rid l = [].
Proof.
  induction l as [|r l IH]; intros Hno; [done|].
  unfold rows_with in *. cbn.
  destruct (String.eqb_spec (log_request_id r) rid) as [E|_].
  - destruct (Hno r); [by left | done].
  - apply IH. intros r' Hin. apply Hno. by right.
Qed.

Lemma rows_with_all rid l :
  Forall (fun r => log_request_id r = rid) l -> rows_with rid l = l.
Proof.
  induction 1 as [|r l Hr _ IH]; [done|].
  unfold rows_with in *. cbn. rewrite <- Hr, String.eqb_refl, Hr. by f_equal.
Qed.

(** X8: [get_request_logs] returns the rows of the audit table that carry
    the identifier, and no other; for an identifier without rows it
    returns an empty list of events, not an error.  When the store fails
    it raises the error of the store and counts no [select_logs]
    operation. *)
Theorem get_request_logs_of_any_id rid w :
  match store_error (db_event_at 0 w) with
  | None =>
      exists rows,
        fst (get_request_logs rid w) = Ok (rid, rows)
        /\ (forall r, In r rows <-> In r (request_logs w) /\ log_request_id r = rid)
        /\ ((forall r, In r (request_logs w) -> log_request_id r <> rid) ->
            rows = [])
        /\ db_operation_count "select_logs" (snd (get_request_logs rid w))
           = db_operation_count "select_logs" w + 1
  | Some e =>
      fst (get_request_logs rid w) = Raise e
      /\ db_operation_count "select_logs" (snd (get_request_logs rid w))
         = db_operation_count "select_logs" w
  end
  /\ request_logs (snd (get_request_logs rid w)) = request_logs w.
Proof.
  destruct (get_request_logs_effects rid w) as (-> & -> & Hd & _).
  split; [|done]. unfold db_operation_count. rewrite Hd. unfold db_ok.
  destruct (db_event_at 0 w); cbn; [|done|done].
  exists (sort_by log_timestamp (rows_with rid (request_logs w))).
  split; [done|]. split; [intros r; by rewrite sort_by_In, rows_with_In|].
  split; [|apply counter_inc_eq].
  intros Hnone. by rewrite rows_with_none.
Qed.

Lemma get_request_logs_of_any_id_witness :
  fst (get_request_logs "PA-00042" (fresh [])) = Ok ("PA-00042", []).
Proof.
  destruct (get_request_logs_of_any_id "PA-00042" (fresh []))
    as ((rows & -> & _ & Hnone & _) & _).
  rewrite Hnone; [reflexivity|]. intros r [].
Defined.

(** X9: What a submission logs, [get_request_logs] returns: asked for the
    identifier of the record just created, it returns, in ascending
    order of their timestamps, the rows that identifier had before
    together with the four rows of the submission. *)
Theorem audit_trail_of_created_record request w resp :
  fst (submit_prior_auth request w) = Ok resp ->
  db_healthy 8 w ->
  exists rows,
    fst (get_request_logs (request_id resp) (snd (submit_prior_auth request w)))
      = Ok (request_id resp, rows)
    /\ rows ≡ₚ (rows_with (request_id resp) (request_logs w)
                ++ [row_received request w; row_passed request w;
                    row_saved request w; row_pending request w])%list
    /\ map log_event_type rows
       ≡ₚ (audit_trail (request_id resp) w ++ success_events)%list
    /\ StronglySorted (fun a b => log_timestamp a <= log_timestamp b) rows.
Proof.
  intros Hres Hh. destruct (submit_ok_inv _ _ _ Hres) as (Hp & -> & H0).
  destruct (get_request_logs_effects (request_id (stored_record request w))
              (snd (submit_prior_auth request w))) as (-> & _).
  rewrite db_event_at_after_submit, Hp. cbn [connections_of Nat.add].
  rewrite (Hh 7%nat) by lia. cbn [store_error].
  eexists. split; [reflexivity|].
  destruct (submit_spec request w) as [_ _ -> _ _ _ _ _ _ _ _ _ _].
  rewrite Hp. cbn [rows_of].
  rewrite !(db_ok_healthy 8) by (done || lia). cbn [when app request_id stored_record].
  assert (rows_with (next_id w)
            (request_logs w ++ [row_received request w; row_passed request w;
                                row_saved request w; row_pending request w])
          = (rows_with (next_id w) (request_logs w)
             ++ [row_received request w; row_passed request w;
                 row_saved request w; row_pending request w])%list) as ->.
  { unfold rows_with. rewrite List.filter_app. f_equal.
    cbn. by rewrite !String.eqb_refl. }
  split; [apply sort_by_Permutation|]. split; [|apply sort_by_sorted].
  rewrite sort_by_Permutation, map_app. reflexivity.
Qed.

Lemma audit_trail_of_created_record_witness :
  exists rows,
    fst (get_request_logs "PA-00001"
           (snd (submit_prior_auth demo_vip
                   (snd (submit_prior_auth demo_invalid (fresh []))))))
      = Ok ("PA-00001", rows)
    /\ map log_event_type rows
       ≡ₚ (failure_events ++ success_events)%list.
Proof.
  set (w1 := snd (submit_prior_auth demo_invalid (fresh []))).
  assert (fst (submit_prior_auth demo_vip w1) = Ok (stored_record demo_vip w1))
    as H by (vm_compute; reflexivity).
  assert (db_healthy 8 w1) as Hh.
  { intros k _. unfold db_event_at.
    assert (db_schedule w1 = []) as -> by (vm_compute; reflexivity).
    by rewrite after_nil. }
  destruct (audit_trail_of_created_record demo_vip w1 _ H Hh)
    as (rows & Hl & _ & Hev & _).
  exists rows. split; [exact Hl|].
  assert (audit_trail (request_id (stored_record demo_vip w1)) w1 = failure_events)
    as E by (vm_compute; reflexivity).
  by rewrite E in Hev.
Defined.

(** ** The tables only grow *)

Lemma exec_logs op w :
  exists rows, request_logs (snd (exec op w)) = (request_logs w ++ rows)%list.
Proof.
  destruct op as [| | |request| |rid|error]; unfold exec;
    rewrite snd_fmap_result.
  - exists []. destruct (root_effects w) as (-> & _). by rewrite app_nil_r.
  - exists []. destruct (health_check_effects w) as (-> & _). by rewrite app_nil_r.
  - exists []. destruct (metrics_spec w) as (_ & ->). by rewrite app_nil_r.
  - destruct (submit_spec request w) as [_ _ -> _ _ _ _ _ _ _ _ _ _]. eauto.
  - exists []. destruct (list_requests_effects w) as (_ & -> & _).
    by rewrite app_nil_r.
  - exists []. destruct (get_request_logs_effects rid w) as (_ & -> & _).
    by rewrite app_nil_r.
  - destruct (trigger_error_effects error w) as (-> & _). eauto.
Qed.

(** X10: No operation deletes or changes a stored record or an audit row:
    after any serialized run, each table is the table before the run
    followed by the rows the run has inserted. *)
Theorem tables_are_append_only ops w :
  prior_auth_requests w `prefix_of` prior_auth_requests (snd (run ops w))
  /\ request_logs w `prefix_of` request_logs (snd (run ops w)).
Proof.
  revert w. induction ops as [|op ops IH]; intros w; [done|].
  rewrite run_cons. cbn [snd].
  destruct (IH (snd (exec op w))) as [Hq Hl]. split.
  - etrans; [|exact Hq]. rewrite exec_requests. by apply prefix_app_r.
  - etrans; [|exact Hl]. destruct (exec_logs op w) as (rows & ->).
    by apply prefix_app_r.
Qed.

(** ** The rows of an error test *)

(** X11: All audit rows of one call of [trigger_error] carry the identifier
    [ERROR-] followed by the seconds of the clock when the handler was
    entered, also the row DATABASE_TIMEOUT that is written after the
    sleep of five seconds.  When the store serves the writes, the rows
    are ERROR_TEST_STARTED, then DATABASE_SLOW and, five seconds later,
    DATABASE_TIMEOUT for [database_timeout]; VALIDATION_ERROR for
    [validation_error]; and nothing more for any other type. *)
Theorem trigger_error_audit_rows error w :
  exists rows,
    request_logs (snd (trigger_error error w)) = (request_logs w ++ rows)%list
    /\ Forall (fun r => log_request_id r = "ERROR-" ++ PyStr.of_int (clock w)) rows
    /\ (db_healthy 3 w ->
        map (fun r => (log_event_type r, log_timestamp r)) rows =
          if String.eqb (error_type error) "database_timeout" then
            [("ERROR_TEST_STARTED", clock w); ("DATABASE_SLOW", clock w);
             ("DATABASE_TIMEOUT", clock w + 5)]
          else if String.eqb (error_type error) "validation_error" then
            [("ERROR_TEST_STARTED", clock w); ("VALIDATION_ERROR", clock w)]
          else [("ERROR_TEST_STARTED", clock w)]).
Proof.
  destruct (trigger_error_effects error w) as (-> & _).
  exists (trigger_rows error w). split; [done|]. unfold trigger_rows. split.
  - destruct (String.eqb _ "database_timeout");
      [|destruct (String.eqb _ "validation_error")];
      repeat (apply Forall_app; split); try apply Forall_when; by constructor.
  - intros Hh. rewrite !(db_ok_healthy 3) by (done || lia).
    destruct (String.eqb _ "database_timeout");
      [|destruct (String.eqb _ "validation_error")];
      cbn; by rewrite ?N.add_0_r.
Qed.

Lemma trigger_error_audit_rows_witness :
  db_healthy 3 (fresh [])
  /\ exists rows,
       request_logs (snd (trigger_error {| error_type := "database_timeout" |}
                            (fresh []))) = rows
       /\ map (fun r => (log_event_type r, log_timestamp r)) rows =
          [("ERROR_TEST_STARTED", 1700000000); ("DATABASE_SLOW", 1700000000);
           ("DATABASE_TIMEOUT", 1700000005)].
Proof.
  split; [apply fresh_healthy|].
  destruct (trigger_error_audit_rows {| error_type := "database_timeout" |}
              (fresh [])) as (rows & Hl & _ & H).
  exists rows. split; [exact Hl|]. exact (H (fresh_healthy 3)).
Defined.

(** ** The probe *)

(** X12: A health check counts its probe once: under [success] when the
    connection is made, under [error] when it is refused, never under
    both; and it writes to neither table. *)
Theorem health_check_counts_the_probe w :
  let refused := match db_event_at 0 w with ConnectFails _ => true | _ => false end in
  counter_value (requests_total (snd (health_check w))) ("success", "/health")
    = counter_value (requests_total w) ("success", "/health")
      + (if refused then 0 else 1)
  /\ counter_value (requests_total (snd (health_check w))) ("error", "/health")
    = counter_value (requests_total w) ("error", "/health")
      + (if refused then 1 else 0)
  /\ prior_auth_requests (snd (health_check w)) = prior_auth_requests w
  /\ request_logs (snd (health_check w)) = request_logs w.
Proof.
  destruct (health_check_spec w) as (_ & -> & -> & _).
  destruct (health_check_effects w) as (-> & _).
  destruct (db_event_at 0 w); cbn;
    rewrite ?counter_inc_eq, ?counter_inc_ne by congruence;
    repeat split; lia.
Qed.

(** ** Scraping the metrics *)

Lemma run_app ops1 ops2 w :
  run (ops1 ++ ops2) w =
  ((fst (run ops1 w) ++ fst (run ops2 (snd (run ops1 w))))%list,
   snd (run ops2 (snd (run ops1 w)))).
Proof.
  revert w. induction ops1 as [|op ops1 IH]; intros w.
  - cbn. by destruct (run ops2 w).
  - cbn [app]. rewrite !run_cons. cbn [fst snd]. by rewrite IH.
Qed.

(** X13: A call of [metrics] cannot be observed by the operations around it:
    it returns the four series as they are and changes nothing, not even
    a counter of its own; so a run with a scrape inserted anywhere gives
    the other operations the same results and ends in the same world. *)
Theorem metrics_scrape_is_unobservable ops1 ops2 w :
  snd (run (ops1 ++ OpMetrics :: ops2) w) = snd (run (ops1 ++ ops2) w)
  /\ fst (run (ops1 ++ OpMetrics :: ops2) w) =
     (fst (run ops1 w)
      ++ fst (exec OpMetrics (snd (run ops1 w)))
      :: fst (run ops2 (snd (run ops1 w))))%list
  /\ fst (run (ops1 ++ ops2) w) =
     (fst (run ops1 w) ++ fst (run ops2 (snd (run ops1 w))))%list.
Proof.
  rewrite !run_app, run_cons. cbn [fst snd].
  assert (snd (exec OpMetrics (snd (run ops1 w))) = snd (run ops1 w)) as ->
    by reflexivity.
  done.
Qed.

(** ** Identifiers are never reused in a serialized run *)

Lemma decimal_value_zero s : decimal_value (String "0" s) = decimal_value s.
Proof.
  unfold decimal_value. cbn. by destruct (NilEmpty.uint_of_string s).
Qed.

Lemma decimal_value_zeros k s :
  decimal_value (string_of_list_ascii (repeat "0"%char k) ++ s) = decimal_value s.
Proof.
  induction k as [|k IH]; [done|].
  change (decimal_value
            (String "0" (string_of_list_ascii (repeat "0"%char k) ++ s))
          = decimal_value s).
  by rewrite decimal_value_zero.
Qed.

(** [int(str(n)) == n] *)
Lemma decimal_value_of_int n : decimal_value (PyStr.of_int n) = Some n.
Proof.
  unfold decimal_value, PyStr.of_int, NilZero.string_of_uint.
  pose proof (DecimalN.Unsigned.of_to n) as Hn.
  destruct (N.to_uint n) eqn:E.
  1: { cbn in Hn. subst n. reflexivity. }
  all: rewrite <- E, NilEmpty.usu, E; by f_equal.
Qed.

(** The number of an identifier can be read back from its digits,
    however many they are. *)
Lemma decimal_value_zero_pad width n :
  decimal_value (PyStr.zero_pad width n) = Some n.
Proof.
  unfold PyStr.zero_pad. by rewrite decimal_value_zeros, decimal_value_of_int.
Qed.

Lemma request_id_of_inj n m : request_id_of n = request_id_of m -> n = m.
Proof.
  unfold request_id_of. intros H.
  assert (PyStr.zero_pad 5 n = PyStr.zero_pad 5 m) as H'
    by (change (String "P" (String "A" (String "-" (PyStr.zero_pad 5 n)))
                = String "P" (String "A" (String "-" (PyStr.zero_pad 5 m))))
          in H; congruence).
  apply (f_equal decimal_value) in H'. rename H' into H0.
  clear H. rename H0 into H.
  rewrite !decimal_value_zero_pad in H. congruence.
Qed.

(** X14: [get_next_request_id] gives two tables the same identifier only when
    they hold the same number of records, also when the number no longer
    fits in five digits. *)
Theorem next_request_id_determines_count w1 w2 :
  db_event_at 0 w1 = DbOk -> db_event_at 0 w2 = DbOk ->
  (fst (get_next_request_id w1) = fst (get_next_request_id w2)
   <-> count_requests w1 = count_requests w2).
Proof.
  intros H1 H2. rewrite !get_next_request_id_ok by done. unfold next_id.
  split.
  - intros H. assert (request_id_of (count_requests w1 + 1)
                      = request_id_of (count_requests w2 + 1)) as Hi
      by congruence.
    apply request_id_of_inj in Hi. lia.
  - by intros ->.
Qed.

Lemma next_request_id_determines_count_witness :
  count_requests (crowded 7 []) = count_requests (crowded 7 [DbOk])
  /\ fst (get_next_request_id (crowded 7 []))
     = fst (get_next_request_id (crowded 7 [DbOk])).
Proof.
  split; [reflexivity|].
  apply (next_request_id_determines_count (crowded 7 []) (crowded 7 [DbOk])
           eq_refl eq_refl).
  reflexivity.
Defined.

Lemma numbered_exec op w : numbered w -> numbered (snd (exec op w)).
Proof.
  intros Hn i r. rewrite exec_requests.
  pose proof (exec_request_id op w) as Hid.
  destruct (fst (exec op w)) as [[b|b|b|resp|b|b|b]|e];
    rewrite ?app_nil_r; try apply Hn.
  intros [Hi | [Hi Hr]]%lookup_app_Some; [by apply Hn|].
  apply list_lookup_singleton_Some in Hr as [Hz <-].
  rewrite (Hid resp eq_refl). unfold next_id, count_requests. f_equal. lia.
Qed.

Lemma numbered_run ops : forall w, numbered w -> numbered (snd (run ops w)).
Proof.
  induction ops as [|op ops IH]; intros w Hn; [done|].
  rewrite run_cons. cbn [snd]. by apply IH, numbered_exec.
Qed.

Lemma numbered_NoDup w :
  numbered w -> NoDup (map request_id (prior_auth_requests w)).
Proof.
  intros Hn. apply NoDup_alt. intros i j x.
  change (map request_id (prior_auth_requests w))
    with (request_id <$> prior_auth_requests w).
  rewrite !list_lookup_fmap.
  destruct (prior_auth_requests w !! i) as [r|] eqn:Ei; [|done].
  destruct (prior_auth_requests w !! j) as [r'|] eqn:Ej; [|done].
  cbn. intros [= <-] [= H].
  rewrite (Hn _ _ Ei), (Hn _ _ Ej) in H.
  apply request_id_of_inj in H. lia.
Qed.

(** X15: Under serialized invocation no identifier is given twice to a stored
    record: a table whose records carry the identifiers of 1, 2, 3 and
    so on, as the empty table does, is still so after any run, and the
    identifiers of its records are pairwise distinct, also beyond
    PA-99999. *)
Theorem stored_identifiers_stay_distinct ops w :
  numbered w ->
  numbered (snd (run ops w))
  /\ NoDup (map request_id (prior_auth_requests (snd (run ops w)))).
Proof.
  intros Hn%(numbered_run ops). split; [done | by apply numbered_NoDup].
Qed.

Lemma numbered_fresh schedule : numbered (fresh schedule).
Proof. by intros [|i] r. Qed.

Lemma stored_identifiers_stay_distinct_witness :
  numbered (fresh [])
  /\ NoDup (map request_id
              (prior_auth_requests
                 (snd (run [OpSubmit demo_valid; OpSubmit demo_invalid;
                            OpSubmit demo_valid] (fresh []))))).
Proof.
  split; [apply numbered_fresh|].
  apply (stored_identifiers_stay_distinct
           [OpSubmit demo_valid; OpSubmit demo_invalid; OpSubmit demo_valid]
           (fresh [])), numbered_fresh.
Defined.

(** ** The table and the records returned *)

(** X16: What the submissions of a serialized run returned is what the run
    added to the table: the table after the run is the table before it
    followed by the records returned, in the order they were returned;
    an operation that raises, or that is not a submission, adds
    nothing. *)
Theorem table_holds_the_returned_records ops w :
  prior_auth_requests (snd (run ops w)) =
  (prior_auth_requests w ++ returned_records (fst (run ops w)))%list.
Proof.
  revert w. induction ops as [|op ops IH]; intros w.
  - cbn. by rewrite app_nil_r.
  - rewrite run_cons. cbn [fst snd]. rewrite IH, exec_requests.
    destruct (fst (exec op w)) as [[b|b|b|resp|b|b|b]|e]; cbn [returned_records];
      by rewrite <- ?app_assoc, ?app_nil_r.
Qed.

(** ** database.py: one statement *)

(** X17: [execute_query] raises when the store fails at the connection
    it opens (the [OperationalError] of a refused connection, the
    [DatabaseError] of a rejected statement) and when rows are fetched
    from a statement that gives none, the insertion of an audit row; in
    no other case.  Whenever it raises, both tables are as they were.
    For a statement that gives rows, the [fetch] flag changes what is
    returned and nothing else.  A count or a selection changes neither
    table, the insertion of an audit row does not touch the requests,
    nor the insertion of a request the audit rows. *)
Theorem execute_query_all_or_nothing q fetch w :
  match store_error (db_event_at 0 w) with
  | Some e =>
      fst (execute_query q fetch w) = Raise e
      /\ prior_auth_requests (snd (execute_query q fetch w)) = prior_auth_requests w
      /\ request_logs (snd (execute_query q fetch w)) = request_logs w
  | None =>
      if fetch && negb (returns_rows q) then
        fst (execute_query q fetch w) = Raise (DatabaseError "no results to fetch")
        /\ prior_auth_requests (snd (execute_query q fetch w)) = prior_auth_requests w
        /\ request_logs (snd (execute_query q fetch w)) = request_logs w
      else is_raise (fst (execute_query q fetch w)) = false
  end
  /\ (if returns_rows q
      then snd (execute_query q fetch w) = snd (execute_query q true w)
      else True)
  /\ match q with
     | CountRequests | SelectRequests | SelectLogs _ =>
         prior_auth_requests (snd (execute_query q fetch w)) = prior_auth_requests w
         /\ request_logs (snd (execute_query q fetch w)) = request_logs w
     | InsertLog _ _ _ =>
         prior_auth_requests (snd (execute_query q fetch w)) = prior_auth_requests w
     | InsertRequest _ _ _ _ _ =>
         request_logs (snd (execute_query q fetch w)) = request_logs w
     end.
Proof.
  unfold execute_query, bind, get_db_connection, raise, db_event_at,
    next_db_event.
  destruct w as [rq lg ser sch rt vf dbo rd lgr os sp clk sl]. cbn.
  destruct (hd DbOk sch); destruct q, fetch; cbn; auto.
Qed.

(** * The configuration of the exporter *)

(** ** Stripping *)

Lemma string_app_cons c s t : String c s ++ t = String c (s ++ t).
Proof. reflexivity. Qed.

Lemma string_app_nil t : EmptyString ++ t = t.
Proof. reflexivity. Qed.

Section Strip.
Variable p : ascii -> bool.

Lemma rstrip_by_all s : Str.all_by p s = true -> Str.rstrip_by p s = EmptyString.
Proof.
  induction s as [|c s IH]; cbn; [done|].
  intros [Hc Hs]%andb_true_iff. by rewrite IH, Hc.
Qed.

(** [rstrip] removes a suffix made of the characters to strip. *)
Lemma rstrip_by_suffix s :
  exists t, s = Str.rstrip_by p s ++ t /\ Str.all_by p t = true.
Proof.
  induction s as [|c s (t & Hs & Ht)]; [by exists EmptyString|].
  cbn [Str.rstrip_by]. destruct (Str.rstrip_by p s) as [|d r] eqn:E.
  - rewrite string_app_nil in Hs. subst t. destruct (p c) eqn:Hc.
    + exists (String c s). split; [done|]. cbn. by rewrite Hc.
    + by exists s.
  - exists t. split; [|done]. rewrite (string_app_cons c). by f_equal.
Qed.

(** What [rstrip] leaves does not end with a character to strip. *)
Lemma rstrip_by_end s t c : Str.rstrip_by p s = t ++ String c EmptyString -> p c = false.
Proof.
  revert t. induction s as [|d s IH]; intros t; cbn [Str.rstrip_by].
  - by destruct t.
  - destruct (Str.rstrip_by p s) as [|e r] eqn:E.
    + destruct (p d) eqn:Hd; [by destruct t|].
      destruct t as [|x t]; rewrite ?string_app_cons, ?string_app_nil.
      * intros H. by injection H as <-.
      * intros H. injection H as _ H. by destruct t.
    + destruct t as [|x t]; rewrite ?string_app_cons, ?string_app_nil.
      * intros H. by injection H as _ H.
      * intros H. injection H as _ H. by apply (IH t).
Qed.

Lemma lstrip_by_idem s : Str.lstrip_by p (Str.lstrip_by p s) = Str.lstrip_by p s.
Proof.
  induction s as [|c s IH]; cbn; [done|].
  destruct (p c) eqn:Hc; [done|]. cbn. by rewrite Hc.
Qed.

Lemma rstrip_by_cons c s :
  Str.rstrip_by p (String c s) =
  match Str.rstrip_by p s with
  | EmptyString => if p c then EmptyString else String c EmptyString
  | t => String c t
  end.
Proof. reflexivity. Qed.

Lemma rstrip_by_idem s : Str.rstrip_by p (Str.rstrip_by p s) = Str.rstrip_by p s.
Proof.
  induction s as [|c s IH]; [done|]. rewrite rstrip_by_cons.
  destruct (Str.rstrip_by p s) as [|d r] eqn:E.
  - destruct (p c) eqn:Hc; [done|]. cbn. by rewrite Hc.
  - rewrite rstrip_by_cons, IH. done.
Qed.

(** Stripping on the left and on the right commute. *)
Lemma lstrip_rstrip_comm s :
  Str.lstrip_by p (Str.rstrip_by p s) = Str.rstrip_by p (Str.lstrip_by p s).
Proof.
  induction s as [|c s IH]; [done|]. rewrite rstrip_by_cons.
  cbn [Str.lstrip_by]. destruct (p c) eqn:Hc.
  - rewrite <- IH. destruct (Str.rstrip_by p s) as [|d r]; [done|].
    cbn [Str.lstrip_by]. by rewrite Hc.
  - rewrite rstrip_by_cons.
    destruct (Str.rstrip_by p s) as [|d r]; cbn; by rewrite Hc.
Qed.

Lemma strip_by_idem s : Str.strip_by p (Str.strip_by p s) = Str.strip_by p s.
Proof.
  unfold Str.strip_by.
  rewrite <- (lstrip_rstrip_comm (Str.rstrip_by p s)), rstrip_by_idem.
  apply lstrip_by_idem.
Qed.

Lemma length_lstrip_by s : (String.length (Str.lstrip_by p s) <= String.length s)%nat.
Proof. induction s as [|c s IH]; cbn; [lia|]. destruct (p c); cbn; lia. Qed.

Lemma length_rstrip_by s : (String.length (Str.rstrip_by p s) <= String.length s)%nat.
Proof.
  induction s as [|c s IH]; cbn; [lia|].
  destruct (Str.rstrip_by p s); [destruct (p c)|]; cbn in *; lia.
Qed.

Lemma lstrip_by_fixed s :
  String.length (Str.lstrip_by p s) = String.length s -> Str.lstrip_by p s = s.
Proof.
  destruct s as [|c s]; cbn; [done|]. destruct (p c); [|done].
  pose proof (length_lstrip_by s). lia.
Qed.

Lemma rstrip_by_fixed s :
  String.length (Str.rstrip_by p s) = String.length s -> Str.rstrip_by p s = s.
Proof.
  induction s as [|c s IH]; [done|]. rewrite rstrip_by_cons.
  pose proof (length_rstrip_by s) as Hle.
  destruct (Str.rstrip_by p s) as [|d r] eqn:E.
  - destruct (p c); cbn; intros Hl; [lia|].
    destruct s; [done | cbn in Hl; lia].
  - cbn. intros [= Hl]. by rewrite IH.
Qed.

(** A string that [strip] leaves as it is, is left so by both halves. *)
Lemma strip_by_fixed s :
  Str.strip_by p s = s -> Str.lstrip_by p s = s /\ Str.rstrip_by p s = s.
Proof.
  unfold Str.strip_by. intros H.
  pose proof (length_lstrip_by (Str.rstrip_by p s)) as H1.
  pose proof (length_rstrip_by s) as H2.
  assert (Str.rstrip_by p s = s) as Hr
    by (apply rstrip_by_fixed; rewrite H in H1; lia).
  split; [|done]. by rewrite Hr in H.
Qed.

Lemma lstrip_by_app s t :
  s <> EmptyString -> Str.lstrip_by p s = s -> Str.lstrip_by p (s ++ t) = s ++ t.
Proof.
  destruct s as [|c s]; [done|]. intros _. rewrite string_app_cons. cbn.
  destruct (p c) eqn:Hc; [|done]. intros H.
  pose proof (length_lstrip_by s) as Hl. rewrite H in Hl. cbn in Hl. lia.
Qed.

Lemma rstrip_by_nonempty s :
  s <> EmptyString -> Str.rstrip_by p s = s -> Str.rstrip_by p s <> EmptyString.
Proof. intros Hs ->. done. Qed.

Lemma rstrip_by_app s t :
  t <> EmptyString -> Str.rstrip_by p t = t -> Str.rstrip_by p (s ++ t) = s ++ t.
Proof.
  intros Ht Hfix. induction s as [|c s IH]; [done|].
  rewrite string_app_cons, rstrip_by_cons, IH.
  destruct (s ++ t) eqn:E; [|done].
  destruct s; rewrite ?string_app_cons, ?string_app_nil in E; [by subst | done].
Qed.

End Strip.

(** ** Membership and splitting *)

Lemma contains_app c s t :
  Str.contains c (s ++ t) = Str.contains c s || Str.contains c t.
Proof.
  induction s as [|d s IH]; [done|].
  rewrite string_app_cons. cbn. by rewrite IH, orb_assoc.
Qed.

Lemma contains_lstrip_by p c s :
  Str.contains c s = false -> Str.contains c (Str.lstrip_by p s) = false.
Proof.
  induction s as [|d s IH]; [done|]. cbn [Str.lstrip_by].
  destruct (p d); [|done]. cbn. intros [_ H]%orb_false_iff. auto.
Qed.

Lemma contains_rstrip_by p c s :
  Str.contains c s = false -> Str.contains c (Str.rstrip_by p s) = false.
Proof.
  induction s as [|d s IH]; [done|]. rewrite rstrip_by_cons. cbn [Str.contains].
  intros [Hd Hs]%orb_false_iff. specialize (IH Hs).
  destruct (Str.rstrip_by p s); [destruct (p d)|]; cbn in *; by rewrite ?Hd, ?IH.
Qed.

Lemma contains_strip_by p c s :
  Str.contains c s = false -> Str.contains c (Str.strip_by p s) = false.
Proof. intros H. by apply contains_lstrip_by, contains_rstrip_by. Qed.

Lemma split_nonempty sep s : Str.split sep s <> [].
Proof.
  destruct s as [|c s]; cbn; [done|].
  destruct (Ascii.eqb c sep); [done|]. by destruct (Str.split sep s).
Qed.

(** No piece of a split holds the separator. *)
Lemma split_pieces sep s :
  Forall (fun x => Str.contains sep x = false) (Str.split sep s).
Proof.
  induction s as [|c s IH]; cbn; [by repeat constructor|].
  destruct (Ascii.eqb c sep) eqn:E; [by constructor|].
  destruct (Str.split sep s) as [|t ts]; [repeat constructor; cbn; by rewrite E|].
  inversion_clear IH. constructor; [cbn; by rewrite E | done].
Qed.

Lemma split_none sep s : Str.contains sep s = false -> Str.split sep s = [s].
Proof.
  induction s as [|c s IH]; [done|]. cbn.
  intros [-> Hs]%orb_false_iff. by rewrite IH.
Qed.

Lemma split_app sep s t :
  Str.contains sep s = false ->
  Str.split sep (s ++ String sep t) = s :: Str.split sep t.
Proof.
  induction s as [|c s IH]; rewrite ?string_app_cons, ?string_app_nil; cbn.
  - intros _. by rewrite Ascii.eqb_refl.
  - intros [-> Hs]%orb_false_iff. by rewrite IH.
Qed.

(** Where the separator occurs, [split(sep, 1)] gives two parts: what
    comes before its first occurrence and what comes after. *)
Lemma split1_contains sep s :
  Str.contains sep s = true ->
  exists k v, Str.split1 sep s = [k; v] /\ s = k ++ String sep v
              /\ Str.contains sep k = false.
Proof.
  induction s as [|c s IH]; [done|]. cbn.
  destruct (Ascii.eqb_spec c sep) as [->|Hne]; cbn.
  - intros _. by exists EmptyString, s.
  - intros (k & v & -> & -> & Hk)%IH. exists (String c k), v.
    split; [done|]. split; [done|]. cbn. rewrite Hk.
    by destruct (Ascii.eqb_spec c sep).
Qed.

Lemma split1_app sep k v :
  Str.contains sep k = false -> Str.split1 sep (k ++ String sep v) = [k; v].
Proof.
  induction k as [|c k IH]; rewrite ?string_app_cons, ?string_app_nil; cbn.
  - intros _. by rewrite Ascii.eqb_refl.
  - intros [-> Hk]%orb_false_iff. by rewrite IH.
Qed.

Lemma string_app_assoc s t u : (s ++ t) ++ u = s ++ (t ++ u).
Proof.
  induction s as [|c s IH]; [done|]. rewrite !string_app_cons. by f_equal.
Qed.

Lemma split_keeps_absent c sep s :
  Str.contains c s = false ->
  Forall (fun x => Str.contains c x = false) (Str.split sep s).
Proof.
  induction s as [|d s IH]; cbn; [by repeat constructor|].
  intros [Hd Hs]%orb_false_iff. specialize (IH Hs).
  destruct (Ascii.eqb d sep); [by constructor|].
  destruct (Str.split sep s) as [|t ts]; [repeat constructor; cbn; by rewrite Hd|].
  inversion_clear IH. constructor; [cbn; by rewrite Hd | done].
Qed.

(** ** The endpoint of the exporter *)

Lemma all_slashes t :
  Str.all_by (Str.among "/") t = true ->
  t = string_of_list_ascii (repeat "/"%char (String.length t)).
Proof.
  induction t as [|c t IH]; [done|]. cbn [Str.all_by].
  intros [Hc Ht]%andb_true_iff. cbn. rewrite <- (IH Ht). f_equal.
  unfold Str.among in Hc. cbn in Hc. rewrite orb_false_r in Hc.
  by apply Ascii.eqb_eq in Hc.
Qed.

(** X18: No exporter is set up when [OTEL_EXPORTER_OTLP_ENDPOINT] is unset or
    empty.  Otherwise the endpoint of the exporter is the variable
    without its trailing slashes, however many, followed by
    [/v1/traces]: values that differ in trailing slashes only give the
    same endpoint. *)
Theorem traces_endpoint_ignores_trailing_slashes environ :
  match environ !! "OTEL_EXPORTER_OTLP_ENDPOINT" with
  | None | Some EmptyString => span_exporter (setup_tracing environ) = None
  | Some endpoint =>
      exists exporter base k,
        span_exporter (setup_tracing environ) = Some exporter
        /\ endpoint = base ++ string_of_list_ascii (repeat "/"%char k)
        /\ (forall t, base <> t ++ "/")
        /\ exporter_endpoint exporter = base ++ "/v1/traces"
  end.
Proof.
  unfold setup_tracing. cbn [span_exporter].
  destruct (environ !! "OTEL_EXPORTER_OTLP_ENDPOINT") as [[|c e]|]; try done.
  destruct (rstrip_by_suffix (Str.among "/") (String c e)) as (t & Ht & Hall).
  eexists _, (Str.rstrip_chars "/" (String c e)), (String.length t).
  split; [reflexivity|]. split; [by rewrite <- all_slashes|].
  split; [|reflexivity].
  intros u Hu. by apply rstrip_by_end in Hu.
Qed.

(** ** The headers of the exporter *)

Lemma render_headers_cons kv rest :
  rest <> [] ->
  render_headers (kv :: rest) = render_header kv ++ String "," (render_headers rest).
Proof.
  destruct kv as [k v], rest as [|kv' rest]; [done|]. intros _.
  unfold render_header. cbn [render_headers fst snd].
  by rewrite !string_app_assoc.
Qed.

Lemma render_headers_one kv : render_headers [kv] = render_header kv.
Proof.
  destruct kv as [k v]. unfold render_header. cbn [render_headers fst snd].
  f_equal. f_equal. induction v as [|c v IH]; [done|].
  rewrite string_app_cons. by f_equal.
Qed.

Lemma render_header_no_comma kv :
  plain_header kv -> Str.contains "," (render_header kv) = false.
Proof.
  intros (_ & Hk & Hv & _). unfold render_header.
  by rewrite !contains_app, Hk, Hv.
Qed.

Lemma split_render_headers pairs :
  pairs <> [] -> Forall plain_header pairs ->
  Str.split "," (render_headers pairs) = map render_header pairs.
Proof.
  induction pairs as [|kv pairs IH]; [done|]. intros _ Hall.
  inversion_clear Hall as [|? ? Hkv Hrest].
  destruct pairs as [|kv' pairs].
  - rewrite render_headers_one. cbn. by apply split_none, render_header_no_comma.
  - rewrite render_headers_cons by done.
    rewrite split_app by by apply render_header_no_comma.
    cbn [map]. f_equal. by apply IH.
Qed.

Lemma strip_render_header kv :
  plain_header kv -> Str.strip (render_header kv) = render_header kv.
Proof.
  destruct kv as [k v]. intros (_ & _ & _ & Hk & Hv). cbn [fst snd] in *.
  apply strip_by_fixed in Hk as [Hk _]. apply strip_by_fixed in Hv as [_ Hv].
  unfold render_header, Str.strip, Str.strip_by. cbn [fst snd].
  assert (Str.rstrip_by Str.isspace ("=" ++ v) = "=" ++ v) as Hr.
  { change ("=" ++ v) with (String "=" v). rewrite rstrip_by_cons, Hv.
    by destruct v. }
  rewrite rstrip_by_app by done.
  destruct k as [|c k]; [done|].
  by apply lstrip_by_app.
Qed.

Lemma header_step_plain d kv :
  plain_header kv -> header_step d (render_header kv) = <[fst kv := snd kv]> d.
Proof.
  intros Hkv. unfold header_step. rewrite strip_render_header by done.
  destruct Hkv as (Hk & _ & _ & Hsk & Hsv). unfold render_header.
  change ("=" ++ snd kv) with (String "=" (snd kv)).
  rewrite contains_app. cbn [Str.contains]. rewrite Ascii.eqb_refl, orb_true_r.
  by rewrite split1_app, Hsk, Hsv.
Qed.

Lemma fold_header_step pairs : forall d,
  Forall plain_header pairs ->
  fold_left header_step (map render_header pairs) d
  = fold_left (fun d kv => <[fst kv := snd kv]> d) pairs d.
Proof.
  induction pairs as [|kv pairs IH]; intros d Hall; [done|].
  inversion_clear Hall. cbn [map fold_left].
  rewrite header_step_plain by done. by apply IH.
Qed.

(** X19: Reading back a list of headers: when the variable lists entries
    [key=value] separated by commas, where no key holds [=] or a comma,
    no value holds a comma, and keys and values have no white space at
    their ends, and when the whole does not begin or end with a quote,
    the exporter is given exactly these headers, a later entry replacing
    an earlier one with the same key.  A value may hold [=]: an entry is
    cut at its first [=] only. *)
Theorem headers_round_trip pairs :
  Forall plain_header pairs ->
  Str.strip_chars double_quote (render_headers pairs) = render_headers pairs ->
  Str.strip_chars "'" (render_headers pairs) = render_headers pairs ->
  headers_dict_of (render_headers pairs) = dict_of pairs.
Proof.
  intros Hall Hdq Hsq. unfold headers_dict_of. rewrite Hdq, Hsq.
  destruct pairs as [|kv pairs]; [done|].
  assert (String.eqb (render_headers (kv :: pairs)) EmptyString = false) as ->.
  { destruct kv as [[|c k] v]; by cbn. }
  rewrite split_render_headers by done. by apply fold_header_step.
Qed.

Lemma headers_round_trip_witness :
  headers_dict_of "Authorization=Basic dXNlcjpwYXNz==,X-Scope-OrgID=17"
  = dict_of [("Authorization", "Basic dXNlcjpwYXNz=="); ("X-Scope-OrgID", "17")].
Proof.
  apply (headers_round_trip
           [("Authorization", "Basic dXNlcjpwYXNz=="); ("X-Scope-OrgID", "17")]).
  - repeat constructor.
  - reflexivity.
  - reflexivity.
Defined.

(** X20: The keys and the values of the headers have no white space at their
    ends, and hold no comma; a key holds no [=]. *)
Theorem headers_are_stripped raw key value :
  headers_dict_of raw !! key = Some value ->
  Str.strip key = key /\ Str.strip value = value
  /\ Str.contains "=" key = false
  /\ Str.contains "," key = false /\ Str.contains "," value = false.
Proof.
  set (P := fun (k v : string) =>
              Str.strip k = k /\ Str.strip v = v
              /\ Str.contains "=" k = false
              /\ Str.contains "," k = false /\ Str.contains "," v = false).
  assert (forall l d, Forall (fun x => Str.contains "," x = false) l ->
                      map_Forall P d -> map_Forall P (fold_left header_step l d))
    as Hfold.
  { induction l as [|x l IH]; intros d Hl Hd; [done|].
    inversion_clear Hl as [|? ? Hx Hl']. cbn [fold_left]. apply IH; [done|].
    unfold header_step.
    pose proof (contains_strip_by Str.isspace _ _ Hx) as Hc.
    fold (Str.strip x) in Hc.
    destruct (Str.contains "=" (Str.strip x)) eqn:E; [|done].
    destruct (split1_contains _ _ E) as (k & v & -> & Hkv & Hk).
    rewrite Hkv, contains_app in Hc. cbn [Str.contains] in Hc.
    apply orb_false_iff in Hc as [Hck Hcv].
    apply orb_false_iff in Hcv as [_ Hcv].
    apply map_Forall_insert_2; [|done].
    repeat split; try apply strip_by_idem; by apply contains_strip_by. }
  unfold headers_dict_of. destruct (String.eqb raw EmptyString); [done|].
  intros Hlook. eapply (Hfold _ ∅); [apply split_pieces | done | exact Hlook].
Qed.

Lemma headers_are_stripped_witness :
  headers_dict_of " X-Scope-OrgID = 17 ,junk" !! "X-Scope-OrgID" = Some "17"
  /\ Str.strip "X-Scope-OrgID" = "X-Scope-OrgID".
Proof.
  assert (headers_dict_of " X-Scope-OrgID = 17 ,junk" !! "X-Scope-OrgID"
          = Some "17") as H by (vm_compute; reflexivity).
  destruct (headers_are_stripped _ _ _ H) as (H1 & _).
  split; [exact H | exact H1].
Defined.

(** X21: A value of the variable in which [=] does not occur gives no header
    at all, and no error. *)
Theorem entries_without_equals_are_skipped raw :
  Str.contains "=" raw = false -> headers_dict_of raw = ∅.
Proof.
  intros Hraw. unfold headers_dict_of.
  destruct (String.eqb raw EmptyString); [done|].
  assert (forall l, Forall (fun x => Str.contains "=" x = false) l ->
                    fold_left header_step l ∅ = (∅ : gmap string string))
    as Hfold.
  { induction l as [|x l IH]; intros Hl; [done|].
    inversion_clear Hl as [|? ? Hx Hl']. cbn [fold_left].
    unfold header_step at 2.
    pose proof (contains_strip_by Str.isspace _ _ Hx) as Hc.
    fold (Str.strip x) in Hc. rewrite Hc. by apply IH. }
  apply Hfold, split_keeps_absent. by do 2 apply contains_strip_by.
Qed.

Lemma entries_without_equals_are_skipped_witness :
  headers_dict_of "Authorization: Basic dXNlcjpwYXNz" = ∅.
Proof. apply entries_without_equals_are_skipped. reflexivity. Defined.

Lemma rstrip_by_snoc p s c :
  p c = true -> Str.rstrip_by p (s ++ String c EmptyString) = Str.rstrip_by p s.
Proof.
  intros Hc. induction s as [|d s IH].
  - rewrite string_app_nil. cbn. by rewrite Hc.
  - by rewrite string_app_cons, !rstrip_by_cons, IH.
Qed.

Lemma strip_by_wrapped p c s :
  p c = true ->
  Str.strip_by p (String c EmptyString ++ s ++ String c EmptyString) = Str.strip_by p s.
Proof.
  intros Hc. unfold Str.strip_by.
  rewrite string_app_cons, string_app_nil.
  rewrite lstrip_rstrip_comm. cbn [Str.lstrip_by]. rewrite Hc.
  by rewrite <- lstrip_rstrip_comm, rstrip_by_snoc.
Qed.

(** X22: A value of the variable wrapped in double quotes gives the headers
    of the value without them. *)
Theorem quoted_headers_are_unwrapped raw :
  headers_dict_of (double_quote ++ raw ++ double_quote) = headers_dict_of raw.
Proof.
  unfold headers_dict_of at 1.
  assert (String.eqb (double_quote ++ raw ++ double_quote) EmptyString = false)
    as -> by reflexivity.
  unfold Str.strip_chars at 2. unfold double_quote.
  rewrite strip_by_wrapped by reflexivity.
  unfold headers_dict_of. destruct raw as [|c raw]; [reflexivity|]. reflexivity.
Qed.
